(** * The A/BBY resolution engine (packages/core/src/index.ts)

    A shallow embedding of class [Abby]: the locally stored project data, the
    two override maps, the injected persistent storages, the listener set,
    and the methods that resolve feature flags and test variants.

    Conventions of the embedding.
    - A JavaScript object used as a record of named entries
      ([config.tests], [#data.tests], [#data.flags]) is an association list
      in property-enumeration order; [obj_set] overwrites an existing
      property in place and appends a new one, as assignment does.
      An object has each property once, and the theorems that depend on
      it ask for lists without repeated names.  The list holds the own
      properties: where the code reads [o[k]] for a name [k] that [o] does
      not hold and [Object.prototype] does, it finds the inherited member,
      and the embedding finds nothing.  [Object_prototype_names] lists
      these names, and the theorems about names that need not be declared
      are stated for the others.
    - A [Map] is a [gmap]; [Map.get] is lookup, [Map.set] is insert.
    - A method is a function in the monad [M]: it takes the instance
      (together with the ambient state it touches) and returns either a value
      or a thrown exception, and the instance afterwards.  Mutations made
      before a throw stay.
    - [config.tests] and [#data.tests] are one and the same object from the
      constructor on ([this.#data.tests = config.tests], and
      [responseToLocalData] folds into [this.config.tests] and hands that
      very object back), so the instance carries it once, in [data], and
      [config_tests] reads it there: what is written into the stored tests
      is written into the configuration.  [AbbyConfig] holds the other
      properties of the configuration.  When [config.tests] is undefined
      the stored tests are an empty object, and stay one as long as no
      response lists a test under an inherited name.
    - [this.log] only prints and is left out. *)

From Stdlib Require Import QArith Ascii String.
From stdpp Require Import base option list strings gmap.

Local Open Scope string_scope.

(** ** JavaScript values *)

(** A [number]; the engine only stores and forwards weights. *)
Definition number : Type := Q.

Inductive exn : Type :=
| TypeError
| InvalidWeightsError.

Inductive result (A : Type) : Type :=
| Ok (a : A)
| Throw (e : exn).
Arguments Ok {A} a.
Arguments Throw {A} e.

(** ** Objects as ordered records of properties *)

(** The own property [k] of [o], or [undefined].  It is what [o[k]] reads
    unless [o] does not hold [k] and [Object.prototype] does (see
    [plainRead] below). *)
Fixpoint obj_get {V : Type} (o : list (string * V)) (k : string) : option V :=
  match o with
  | [] => None
  | (k', v) :: o' => if decide (k' = k) then Some v else obj_get o' k
  end.

(** [o[k] = v] on the own properties ([k] is not [__proto__], which an
    object holds only as an inherited accessor). *)
Fixpoint obj_set {V : Type} (o : list (string * V)) (k : string) (v : V)
  : list (string * V) :=
  match o with
  | [] => [(k, v)]
  | (k', v') :: o' =>
      if decide (k' = k) then (k', v) :: o' else (k', v') :: obj_set o' k v
  end.

Definition obj_keys {V : Type} (o : list (string * V)) : list string :=
  map fst o.

(** The properties of [Object.prototype], which every object literal and
    every [{}] of the module inherits.  For such a name [k] that [o] does
    not hold itself, [o[k]] is the inherited member (a function, and for
    [__proto__] the prototype) and not [undefined], and [o.__proto__ = v]
    sets the prototype and adds no property. *)
Definition Object_prototype_names : list string :=
  ["constructor"; "__defineGetter__"; "__defineSetter__"; "hasOwnProperty";
   "__lookupGetter__"; "__lookupSetter__"; "isPrototypeOf";
   "propertyIsEnumerable"; "toString"; "valueOf"; "__proto__";
   "toLocaleString"].

Definition inheritedName (k : string) : Prop := k ∈ Object_prototype_names.

(** Holds when [o[k]] is an own property of [o] or [undefined], so that
    [obj_get o k] is what the code reads. *)
Definition plainRead {V : Type} (o : list (string * V)) (k : string) : Prop :=
  k ∈ obj_keys o ∨ ¬ inheritedName k.

(** ** Strings *)

Fixpoint string_drop (n : nat) (s : string) : string :=
  match n, s with
  | O, _ => s
  | Datatypes.S n', String _ s' => string_drop n' s'
  | Datatypes.S _, EmptyString => EmptyString
  end.

(** [s.startsWith(p)] *)
Definition startsWith (s p : string) : bool := String.prefix p s.

(** [s.replace(pat, r)] for a string pattern: the first occurrence of
    [pat], wherever it is, is replaced ([r] holds no [$] pattern here). *)
Fixpoint String_replace (s pat r : string) : string :=
  if String.prefix pat s then r ++ string_drop (String.length pat) s
  else match s with
       | EmptyString => EmptyString
       | String c s' => String c (String_replace s' pat r)
       end.

(** ** Types of the module *)

(** [ABConfig] extended by [LocalData]: [variants], and the optional
    [weights] and [selectedVariant]. *)
Record TestEntry : Type := mkTestEntry {
  variants : list string;
  weights : option (list number);
  selectedVariant : option string
}.

(** [settings.flags]; [default_] is the property [default]. *)
Record FlagSettings : Type := mkFlagSettings {
  devDefault : option bool;
  default_ : option bool;
  devOverrides : option (gmap string bool)
}.

Record Settings : Type := mkSettings {
  settings_flags : option FlagSettings
}.

(** [AbbyConfig], without [tests]: [config.tests] is the object stored as
    [#data.tests] and is carried there (see [config_tests]). *)
Record AbbyConfig : Type := mkAbbyConfig {
  projectId : string;
  apiUrl : option string;
  currentEnvironment : option string;
  config_flags : option (list string);
  settings : option Settings;
  debug : option bool
}.

(** [LocalData]; a stored flag is a boolean or [null]. *)
Record LocalData : Type := mkLocalData {
  tests : list (string * TestEntry);
  flags : list (string * option bool)
}.

(** [AbbyDataResponse] of the shared package, as the mock handler of the
    test suite builds it. *)
Record AbbyDataResponse : Type := mkAbbyDataResponse {
  response_tests : list (string * list number);
  response_flags : list (string * bool)
}.

(** [interface PersistentStorage] *)
Class PersistentStorage (S : Type) : Type := {
  storage_get : S → string → option string;
  storage_set : S → string → string → S
}.

(** A storage that remembers what was set, key by key. *)
Class LawfulStorage (S : Type) `{PersistentStorage S} : Prop := {
  storage_get_set_eq : ∀ (s : S) k v, storage_get (storage_set s k v) k = Some v;
  storage_get_set_ne : ∀ (s : S) k k' v,
    k ≠ k' → storage_get (storage_set s k v) k' = storage_get s k'
}.

(** ** Facts about objects *)

Lemma obj_get_set_eq {V} (o : list (string * V)) k v :
  obj_get (obj_set o k v) k = Some v.
Proof.
  induction o as [|[k' v'] o IH]; cbn.
  - by rewrite decide_True.
  - destruct (decide (k' = k)) as [->|Hne]; cbn.
    + by rewrite decide_True.
    + by rewrite decide_False.
Qed.

Lemma obj_get_set_ne {V} (o : list (string * V)) k k' v :
  k ≠ k' → obj_get (obj_set o k v) k' = obj_get o k'.
Proof.
  intros Hne. induction o as [|[k0 v0] o IH]; cbn.
  - by rewrite decide_False.
  - destruct (decide (k0 = k)) as [->|Hk0]; cbn.
    + by rewrite !decide_False.
    + destruct (decide (k0 = k')); [done | apply IH].
Qed.

Lemma obj_get_is_Some {V} (o : list (string * V)) k :
  is_Some (obj_get o k) ↔ k ∈ obj_keys o.
Proof.
  induction o as [|[k' v'] o IH]; cbn.
  - split; [by intros [? ?] | by intros ?%elem_of_nil].
  - rewrite elem_of_cons. destruct (decide (k' = k)) as [->|Hne].
    + split; [by left | by eexists].
    + rewrite IH. split; [by right | by intros [?|?]].
Qed.

Lemma obj_keys_set {V} (o : list (string * V)) k v :
  k ∈ obj_keys o → obj_keys (obj_set o k v) = obj_keys o.
Proof.
  induction o as [|[k' v'] o IH]; cbn.
  - by intros ?%elem_of_nil.
  - intros Hin. destruct (decide (k' = k)) as [->|Hne]; cbn; [done|].
    f_equal. apply IH. by apply elem_of_cons in Hin as [?|?].
Qed.

Lemma obj_set_id {V} (o : list (string * V)) k v :
  obj_get o k = Some v → obj_set o k v = o.
Proof.
  induction o as [|[k' v'] o IH]; cbn; [done|].
  destruct (decide (k' = k)) as [->|Hne].
  - by intros [= ->].
  - intros Hget. f_equal. by apply IH.
Qed.

Lemma obj_get_elem {V} (o : list (string * V)) k v :
  NoDup (obj_keys o) → (k, v) ∈ o → obj_get o k = Some v.
Proof.
  induction o as [|[k' v'] o IH]; cbn; intros Hnd Hin.
  - by apply elem_of_nil in Hin.
  - apply NoDup_cons in Hnd as [Hk' Hnd].
    apply elem_of_cons in Hin as [[= -> ->]|Hin].
    + by rewrite decide_True.
    + rewrite decide_False; [by apply IH|].
      intros ->. apply Hk'. change (k ∈ obj_keys o).
      apply list_elem_of_fmap. by exists (k, v).
Qed.

Lemma obj_get_app {V} (o1 o2 : list (string * V)) k :
  obj_get (o1 ++ o2) k
  = match obj_get o1 k with
    | Some v => Some v
    | None => obj_get o2 k
    end.
Proof.
  induction o1 as [|[k' v'] o1 IH]; cbn; [done|].
  by destruct (decide (k' = k)).
Qed.

Lemma obj_get_notin {V} (o : list (string * V)) k :
  k ∉ obj_keys o → obj_get o k = None.
Proof.
  intros Hk. destruct (obj_get o k) eqn:Hget; [|done].
  destruct Hk. apply obj_get_is_Some. by eexists.
Qed.

Lemma obj_set_app_notin {V} (o1 o2 : list (string * V)) k v0 v :
  k ∉ obj_keys o1 →
  obj_set (o1 ++ (k, v0) :: o2) k v = (o1 ++ (k, v) :: o2)%list.
Proof.
  induction o1 as [|[k' v'] o1 IH]; cbn; intros Hk.
  - by rewrite decide_True.
  - apply not_elem_of_cons in Hk as [Hne Hk].
    rewrite decide_False by done. f_equal. by apply IH.
Qed.

Lemma not_inheritedName (k : string) :
  bool_decide (k ∈ Object_prototype_names) = false → ¬ inheritedName k.
Proof. intros Hb Hin. by apply bool_decide_eq_false in Hb. Qed.

(** A storage backed by a plain object. *)
#[global] Instance object_storage : PersistentStorage (list (string * string)) := {
  storage_get s k := obj_get s k;
  storage_set s k v := obj_set s k v
}.

#[global] Instance object_storage_lawful : LawfulStorage (list (string * string)).
Proof.
  split; intros; cbn.
  - apply obj_get_set_eq.
  - by apply obj_get_set_ne.
Qed.

(** A listener is known by its identity; calling it records what it was
    handed. *)
Definition Listener : Type := nat.

Section Engine.

(** The injected storage implementation and the state of [Math.random]. *)
Context {S : Type} `{PersistentStorage S} {Rng : Type}.

(** [getWeightedRandomVariant] of ./mathHelpers, [parseCookies] of
    ./helpers and the two storage prefixes of the shared package, which
    the module imports. *)
Variable getWeightedRandomVariant :
  list string → option (list number) → Rng → result string * Rng.
Variable parseCookies : string → list (string * string).
Variables ABBY_AB_STORAGE_PREFIX ABBY_FF_STORAGE_PREFIX : string.

(** An instance of [Abby] and the ambient state its methods read or
    write: whether [process.env.NODE_ENV === "development"], the random
    source, and what each listener has received so far. *)
Record Abby : Type := mkAbby {
  config : AbbyConfig;
  data : LocalData;
  listeners : list Listener;
  dataInitialized : bool;
  flagOverrides : gmap string bool;
  testOverrides : gmap string string;
  persistantTestStorage : option S;
  persistantFlagStorage : option S;
  development : bool;
  random : Rng;
  delivered : list (Listener * LocalData)
}.

Definition with_data (d : LocalData) (w : Abby) : Abby :=
  mkAbby (config w) d (listeners w) (dataInitialized w) (flagOverrides w)
    (testOverrides w) (persistantTestStorage w) (persistantFlagStorage w)
    (development w) (random w) (delivered w).

Definition with_listeners (l : list Listener) (w : Abby) : Abby :=
  mkAbby (config w) (data w) l (dataInitialized w) (flagOverrides w)
    (testOverrides w) (persistantTestStorage w) (persistantFlagStorage w)
    (development w) (random w) (delivered w).

Definition with_dataInitialized (b : bool) (w : Abby) : Abby :=
  mkAbby (config w) (data w) (listeners w) b (flagOverrides w)
    (testOverrides w) (persistantTestStorage w) (persistantFlagStorage w)
    (development w) (random w) (delivered w).

Definition with_flagOverrides (m : gmap string bool) (w : Abby) : Abby :=
  mkAbby (config w) (data w) (listeners w) (dataInitialized w) m
    (testOverrides w) (persistantTestStorage w) (persistantFlagStorage w)
    (development w) (random w) (delivered w).

Definition with_testOverrides (m : gmap string string) (w : Abby) : Abby :=
  mkAbby (config w) (data w) (listeners w) (dataInitialized w)
    (flagOverrides w) m (persistantTestStorage w) (persistantFlagStorage w)
    (development w) (random w) (delivered w).

Definition with_persistantTestStorage (s : option S) (w : Abby) : Abby :=
  mkAbby (config w) (data w) (listeners w) (dataInitialized w)
    (flagOverrides w) (testOverrides w) s (persistantFlagStorage w)
    (development w) (random w) (delivered w).

Definition with_persistantFlagStorage (s : option S) (w : Abby) : Abby :=
  mkAbby (config w) (data w) (listeners w) (dataInitialized w)
    (flagOverrides w) (testOverrides w) (persistantTestStorage w) s
    (development w) (random w) (delivered w).

Definition with_random (r : Rng) (w : Abby) : Abby :=
  mkAbby (config w) (data w) (listeners w) (dataInitialized w)
    (flagOverrides w) (testOverrides w) (persistantTestStorage w)
    (persistantFlagStorage w) (development w) r (delivered w).

Definition with_delivered (l : list (Listener * LocalData)) (w : Abby) : Abby :=
  mkAbby (config w) (data w) (listeners w) (dataInitialized w)
    (flagOverrides w) (testOverrides w) (persistantTestStorage w)
    (persistantFlagStorage w) (development w) (random w) l.

Definition with_tests (t : list (string * TestEntry)) (w : Abby) : Abby :=
  with_data (mkLocalData t (flags (data w))) w.

Definition with_flags (f : list (string * option bool)) (w : Abby) : Abby :=
  with_data (mkLocalData (tests (data w)) f) w.

(** [this.config.tests]: the very object that is stored as [#data.tests],
    so that every write to the stored tests is a write to it. *)
Definition config_tests (w : Abby) : list (string * TestEntry) :=
  tests (data w).

(** ** The method monad *)

Definition M (A : Type) : Type := Abby → result A * Abby.

Definition ret {A : Type} (a : A) : M A := fun w => (Ok a, w).

Definition throw {A : Type} (e : exn) : M A := fun w => (Throw e, w).

Definition bind {A B : Type} (m : M A) (k : A → M B) : M B :=
  fun w =>
    match m w with
    | (Ok a, w') => k a w'
    | (Throw e, w') => (Throw e, w')
    end.

Definition modify (f : Abby → Abby) : M unit := fun w => (Ok tt, f w).

Notation "'let*' x ':=' m 'in' k" := (bind m (fun x => k))
  (at level 10, x name, m at level 100, k at level 200).

(** [xs.forEach(f)] for an effectful [f]; a throw ends the loop. *)
Fixpoint forEach {A : Type} (f : A → M unit) (xs : list A) : M unit :=
  match xs with
  | [] => ret tt
  | x :: xs' => let* _ := f x in forEach f xs'
  end.

(** The results of an effectful [f] on the elements of [xs], one after
    the other; a throw ends the run. *)
Fixpoint mapM {A B : Type} (f : A → M B) (xs : list A) : M (list B) :=
  match xs with
  | [] => ret []
  | x :: xs' =>
      let* y := f x in
      let* ys := mapM f xs' in
      ret (y :: ys)
  end.

(** ** Resolution of a feature flag *)

(** [config.settings?.flags] *)
Definition flagSettings (w : Abby) : option FlagSettings :=
  settings (config w) ≫= settings_flags.

(** [(config.settings?.flags?.devOverrides)?.[key]] *)
Definition devOverride (w : Abby) (key : string) : option bool :=
  match flagSettings w ≫= devOverrides with
  | Some m => m !! key
  | None => None
  end.

(** [getFeatureFlag(key)].  [x != null] holds of a value that is neither
    [null] nor [undefined]: a missing property and a stored [null] are
    both skipped. *)
Definition getFeatureFlag (key : string) : M bool := fun w =>
  let storedValue : option bool :=
    match obj_get (flags (data w)) key with
    | Some (Some b) => Some b
    | Some None | None => None
    end in
  let localOverride := flagOverrides w !! key in
  match localOverride with
  | Some b => (Ok b, w)
  | None =>
      let devValue : option bool :=
        if development w then
          match devOverride w key with
          | Some b => Some b
          | None => flagSettings w ≫= devDefault
          end
        else None in
      match devValue with
      | Some b => (Ok b, w)
      | None =>
          match storedValue with
          | Some b => (Ok b, w)
          | None => (Ok (default false (flagSettings w ≫= default_)), w)
          end
      end
  end.

Definition gets {A : Type} (f : Abby → A) : M A := fun w => (Ok (f w), w).

(** ** Resolution of a test variant *)

(** [this.persistantTestStorage?.get(key)] *)
Definition persistedValue (w : Abby) (key : string) : option string :=
  match persistantTestStorage w with
  | Some s => storage_get s key
  | None => None
  end.

(** [getTestVariant(key)].  Destructuring the entry of an unknown name
    throws a [TypeError]. *)
Definition getTestVariant (key : string) : M string := fun w =>
  match obj_get (tests (data w)) key with
  | None => (Throw TypeError, w)
  | Some t =>
      let override := testOverrides w !! key in
      match (if development w then override else None) with
      | Some o => (Ok o, w)
      | None =>
          match persistedValue w key with
          | Some p => (Ok p, w)
          | None =>
              match getWeightedRandomVariant (variants t) (weights t)
                      (random w) with
              | (Throw e, r) => (Throw e, with_random r w)
              | (Ok weightedVariant, r) =>
                  (Ok weightedVariant,
                   with_persistantTestStorage
                     ((λ s, storage_set s key weightedVariant)
                        <$> persistantTestStorage w)
                     (with_random r w))
              end
          end
      end
  end.

(** ** The resolved project data *)

(** The callback of the reducer over [Object.entries(this.#data.tests)];
    [acc] is [this.#data.tests] itself. *)
Definition reduceTest (e : string * TestEntry) : M unit :=
  let* v := getTestVariant e.1 in
  modify (λ w,
    with_tests
      (obj_set (tests (data w)) e.1
         (mkTestEntry (variants e.2) (weights e.2) (Some v))) w).

(** The callback of the reducer over [Object.keys(this.#data.flags)];
    [acc] is [this.#data.flags] itself. *)
Definition reduceFlag (flagName : string) : M unit :=
  let* b := getFeatureFlag flagName in
  modify (λ w, with_flags (obj_set (flags (data w)) flagName (Some b)) w).

(** [getProjectData()].  Both reducers take the stored object itself as
    their accumulator, so every assignment to [acc] writes [#data]; the
    returned [tests] and [flags] are those stored objects. *)
Definition getProjectData : M LocalData :=
  let* entries := gets (λ w, tests (data w)) in
  let* _ := forEach reduceTest entries in
  let* keys := gets (λ w, obj_keys (flags (data w))) in
  let* _ := forEach reduceFlag keys in
  gets data.

(** [notifyListeners()]; a [Set] is visited in insertion order. *)
Definition notifyListeners : M unit :=
  let* ls := gets listeners in
  forEach (λ listener : Listener,
      let* d := getProjectData in
      modify (λ w, with_delivered (delivered w ++ [(listener, d)]) w))
    ls.

(** ** Ingesting a response *)

(** The reducer over [data.tests]: an unknown name leaves [acc] as it is,
    a known one gets the fetched weights. *)
Definition mergeTest (acc : list (string * TestEntry))
    (t : string * list number) : list (string * TestEntry) :=
  match obj_get acc t.1 with
  | None => acc
  | Some e =>
      obj_set acc t.1 (mkTestEntry (variants e) (Some t.2) (selectedVariant e))
  end.

(** The reducer over [data.flags]. *)
Definition mergeFlag (acc : list (string * option bool))
    (f : string * bool) : list (string * option bool) :=
  obj_set acc f.1 (Some f.2).

(** [responseToLocalData(data)].  The tests are folded into
    [this.config.tests] in place, the flags into a fresh object.  Reading
    [data.tests] of [null] or [undefined] throws. *)
Definition responseToLocalData (response : option AbbyDataResponse)
  : M LocalData :=
  match response with
  | None => throw TypeError
  | Some d =>
      let* _ := modify (λ w,
        with_tests (fold_left mergeTest (response_tests d) (tests (data w))) w) in
      let* t := gets (λ w, tests (data w)) in
      ret (mkLocalData t (fold_left mergeFlag (response_flags d) []))
  end.

(** [setLocalOverrides(cookies)] *)
Definition setLocalOverrides (cookies : string) : M unit :=
  forEach (λ c : string * string,
      let* pid := gets (λ w, projectId (config w)) in
      let* _ :=
        if startsWith c.1 ABBY_AB_STORAGE_PREFIX then
          let testName :=
            String_replace c.1 (ABBY_AB_STORAGE_PREFIX ++ pid ++ "_") "" in
          modify (λ w,
            with_testOverrides (<[testName := c.2]> (testOverrides w)) w)
        else ret tt in
      if startsWith c.1 ABBY_FF_STORAGE_PREFIX then
        let flagName :=
          String_replace c.1 (ABBY_FF_STORAGE_PREFIX ++ pid ++ "_") "" in
        modify (λ w,
          with_flagOverrides
            (<[flagName := bool_decide (c.2 = "true")]> (flagOverrides w)) w)
      else ret tt)
    (parseCookies cookies).

(** The flag names for which [setLocalOverrides(cookies)] records an
    override in an instance of project [pid]. *)
Definition cookieFlagNames (pid cookies : string) : list string :=
  map (λ c : string * string,
         String_replace c.1 (ABBY_FF_STORAGE_PREFIX ++ pid ++ "_") "")
    (filter (λ c : string * string,
               startsWith c.1 ABBY_FF_STORAGE_PREFIX = true)
       (parseCookies cookies)).

(** [init(data)].  [cookie] is [document.cookie] when [window] and
    [document] are defined, and [None] elsewhere. *)
Definition init (response : option AbbyDataResponse) (cookie : option string)
  : M LocalData :=
  let* d := responseToLocalData response in
  let* _ := modify (with_data d) in
  let* _ := notifyListeners in
  let* _ := match cookie with
            | Some c => setLocalOverrides c
            | None => ret tt
            end in
  getProjectData.

(** [loadProjectData()], given what [HttpService.getProjectData]
    resolved to. *)
Definition loadProjectData (fetched : option AbbyDataResponse)
    (cookie : option string) : M unit :=
  match fetched with
  | None => ret tt
  | Some d => let* _ := init (Some d) cookie in ret tt
  end.

(** [getProjectDataAsync()] *)
Definition getProjectDataAsync (fetched : option AbbyDataResponse)
    (cookie : option string) : M LocalData :=
  let* initialized := gets dataInitialized in
  let* _ := if initialized then ret tt else loadProjectData fetched cookie in
  let* _ := modify (with_dataInitialized true) in
  getProjectData.

(** ** Overrides and subscriptions *)

(** [updateLocalVariant(key, override)] *)
Definition updateLocalVariant (key override : string) : M unit :=
  let* _ := modify (λ w,
    with_testOverrides (<[key := override]> (testOverrides w)) w) in
  let* _ := modify (λ w,
    with_persistantTestStorage
      ((λ s, storage_set s key override) <$> persistantTestStorage w) w) in
  notifyListeners.

(** [value.toString()] *)
Definition Boolean_toString (b : bool) : string :=
  if b then "true" else "false".

(** [updateFlag(name, value)] *)
Definition updateFlag (name : string) (value : bool) : M unit :=
  let* _ := modify (λ w,
    with_flagOverrides (<[name := value]> (flagOverrides w)) w) in
  let* dev := gets development in
  let* _ :=
    if dev then
      modify (λ w,
        with_persistantFlagStorage
          ((λ s, storage_set s name (Boolean_toString value))
             <$> persistantFlagStorage w) w)
    else ret tt in
  notifyListeners.

(** [subscribe(listener)]: [Set.add] keeps one copy. *)
Definition subscribe (listener : Listener) : M unit :=
  modify (λ w,
    if bool_decide (listener ∈ listeners w) then w
    else with_listeners (listeners w ++ [listener]) w).

(** The function [subscribe] returns. *)
Definition unsubscribe (listener : Listener) : M unit :=
  modify (λ w,
    with_listeners (filter (λ l, l ≠ listener) (listeners w)) w).

(** [getVariants(testName)] *)
Definition getVariants (testName : string) : M (list string) := fun w =>
  match obj_get (tests (data w)) testName with
  | None => (Throw TypeError, w)
  | Some t => (Ok (variants t), w)
  end.

(** [new Abby(config, persistantTestStorage, persistantFlagStorage)];
    [configTests] is [config.tests]. *)
Definition new_Abby (cfg : AbbyConfig)
    (configTests : option (list (string * list string)))
    (testStorage flagStorage : option S) (dev : bool) (rng : Rng) : Abby :=
  mkAbby cfg
    (mkLocalData
       (map (λ t : string * list string, (t.1, mkTestEntry t.2 None None))
          (default [] configTests))
       (fold_left (λ acc flag, obj_set acc flag None)
          (default [] (config_flags cfg)) []))
    [] false ∅ ∅ testStorage flagStorage dev rng [].

(** ** Calls from outside *)

Inductive call : Type :=
| CallInit (response : option AbbyDataResponse) (cookie : option string)
| CallLoadProjectData (fetched : option AbbyDataResponse) (cookie : option string)
| CallGetProjectDataAsync (fetched : option AbbyDataResponse) (cookie : option string)
| CallGetProjectData
| CallGetFeatureFlag (key : string)
| CallGetTestVariant (key : string)
| CallGetVariants (testName : string)
| CallUpdateLocalVariant (key override : string)
| CallUpdateFlag (name : string) (value : bool)
| CallSubscribe (listener : Listener)
| CallUnsubscribe (listener : Listener)
| CallSetLocalOverrides (cookies : string).

(** The instance after a call, whether it returned or threw. *)
Definition after (c : call) (w : Abby) : Abby :=
  match c with
  | CallInit r ck => (init r ck w).2
  | CallLoadProjectData r ck => (loadProjectData r ck w).2
  | CallGetProjectDataAsync r ck => (getProjectDataAsync r ck w).2
  | CallGetProjectData => (getProjectData w).2
  | CallGetFeatureFlag k => (getFeatureFlag k w).2
  | CallGetTestVariant k => (getTestVariant k w).2
  | CallGetVariants k => (getVariants k w).2
  | CallUpdateLocalVariant k v => (updateLocalVariant k v w).2
  | CallUpdateFlag k v => (updateFlag k v w).2
  | CallSubscribe l => (subscribe l w).2
  | CallUnsubscribe l => (unsubscribe l w).2
  | CallSetLocalOverrides c => (setLocalOverrides c w).2
  end.

Definition after_all (cs : list call) (w : Abby) : Abby :=
  fold_left (λ w c, after c w) cs w.

End Engine.

(** * The imported helpers, after the specification *)

(** Modelled from the spec: getWeightedRandomVariant of ./mathHelpers,
    which is not among the sources (section 4.4).  The injectable random
    source is the list of the draws to come, each in the unit interval and
    scaled to the total weight; missing weights are all 1.  The weights are
    validated first: a length that differs from that of the variants, or a
    total of 0, is an [InvalidWeightsError].  The variant chosen is the
    first whose cumulative weight strictly exceeds the draw; a draw that no
    cumulative weight exceeds, which a source within the unit interval
    never yields for non-negative weights, selects nothing and is reported
    the same way. *)
Fixpoint selectByDraw (variants : list string) (ws : list Q) (draw acc : Q)
  : option string :=
  match variants, ws with
  | v :: variants', x :: ws' =>
      let acc' := (acc + x)%Q in
      if Qle_bool acc' draw then selectByDraw variants' ws' draw acc'
      else Some v
  | _, _ => None
  end.

Definition totalWeight (ws : list Q) : Q := fold_right Qplus 0%Q ws.

Definition getWeightedRandomVariant_spec (variants : list string)
    (weights : option (list number)) (rng : list Q)
  : result string * list Q :=
  let ws := default (map (λ _, 1%Q) variants) weights in
  if negb (Nat.eqb (length ws) (length variants)) then
    (Throw InvalidWeightsError, rng)
  else if Qeq_bool (totalWeight ws) 0 then (Throw InvalidWeightsError, rng)
  else
    let draw := (hd 0%Q rng * totalWeight ws)%Q in
    match selectByDraw variants ws draw 0 with
    | Some v => (Ok v, tl rng)
    | None => (Throw InvalidWeightsError, tl rng)
    end.

(** Modelled from the spec: parseCookies of ./helpers, which is not among
    the sources (section 4.5).  The entries are separated by semicolons,
    each is trimmed of surrounding spaces and split at its first [=]; an
    entry without [=] is skipped.  The result is an object, so a repeated
    name keeps its last value. *)
Fixpoint splitOn (sep : ascii) (s : string) : list string :=
  match s with
  | EmptyString => [EmptyString]
  | String c s' =>
      if decide (c = sep) then EmptyString :: splitOn sep s'
      else match splitOn sep s' with
           | [] => [String c EmptyString]
           | h :: rest => String c h :: rest
           end
  end.

Fixpoint trimStart (s : string) : string :=
  match s with
  | String " "%char s' => trimStart s'
  | _ => s
  end.

Definition reverseString (s : string) : string :=
  string_of_list_ascii (rev (list_ascii_of_string s)).

Definition trim (s : string) : string :=
  reverseString (trimStart (reverseString (trimStart s))).

Fixpoint splitAtEquals (s : string) : option (string * string) :=
  match s with
  | EmptyString => None
  | String "="%char s' => Some (EmptyString, s')
  | String c s' =>
      match splitAtEquals s' with
      | Some (name, value) => Some (String c name, value)
      | None => None
      end
  end.

Definition parseCookies_spec (cookies : string) : list (string * string) :=
  fold_left (λ acc entry,
      match splitAtEquals (trim entry) with
      | Some (name, value) => obj_set acc name value
      | None => acc
      end)
    (splitOn ";"%char cookies) [].

(** Modelled from the spec: the two storage prefixes of the shared
    package, read off the cookie names of section 8,
    [abby-ab-proj1_test] and [abby-ff-proj1_flag1]. *)
Definition ABBY_AB_STORAGE_PREFIX_spec : string := "abby-ab-".
Definition ABBY_FF_STORAGE_PREFIX_spec : string := "abby-ff-".

(** * An instance to compute with

    Project [proj1] declares the flags [flag1] and [flag2] and the test
    [test] with the variants [A] and [B], as the configuration of the test
    suite's mock handler does for its first entries. *)

Definition ObjectStorage : Type := list (string * string).

Definition exampleConfig : AbbyConfig :=
  mkAbbyConfig "proj1" None None (Some ["flag1"; "flag2"]) None None.

Definition example (dev : bool) (testStorage : option ObjectStorage)
    (rng : list Q) : @Abby ObjectStorage (list Q) :=
  new_Abby exampleConfig (Some [("test", ["A"; "B"])]) testStorage None dev rng.

Definition exampleCalls : list call → @Abby ObjectStorage (list Q)
                          → @Abby ObjectStorage (list Q) :=
  after_all getWeightedRandomVariant_spec parseCookies_spec
    ABBY_AB_STORAGE_PREFIX_spec ABBY_FF_STORAGE_PREFIX_spec.

(** The response of the mock handler, cut to the declared test. *)
Definition exampleResponse : AbbyDataResponse :=
  mkAbbyDataResponse
    [("test", [1%Q; 1%Q]); ("test2", [1%Q; 0%Q])]
    [("flag1", true); ("flag2", false)].

(** * Properties of the engine *)

Section EngineFacts.

Context {S : Type} `{PersistentStorage S} {Rng : Type}.
Variable getWeightedRandomVariant :
  list string → option (list number) → Rng → result string * Rng.
Variable parseCookies : string → list (string * string).
Variables ABBY_AB_STORAGE_PREFIX ABBY_FF_STORAGE_PREFIX : string.

Abbreviation Abby := (@Abby S Rng).
Abbreviation M := (@M S Rng).
Abbreviation getTestVariant := (getTestVariant getWeightedRandomVariant).
Abbreviation reduceTest := (reduceTest getWeightedRandomVariant).
Abbreviation getProjectData := (getProjectData getWeightedRandomVariant).
Abbreviation notifyListeners := (notifyListeners getWeightedRandomVariant).
Abbreviation updateFlag := (updateFlag getWeightedRandomVariant).
Abbreviation updateLocalVariant := (updateLocalVariant getWeightedRandomVariant).
Abbreviation cookieFlagNames :=
  (cookieFlagNames parseCookies ABBY_FF_STORAGE_PREFIX).
Abbreviation setLocalOverrides :=
  (setLocalOverrides parseCookies ABBY_AB_STORAGE_PREFIX ABBY_FF_STORAGE_PREFIX).
Abbreviation init :=
  (init getWeightedRandomVariant parseCookies
     ABBY_AB_STORAGE_PREFIX ABBY_FF_STORAGE_PREFIX).
Abbreviation loadProjectData :=
  (loadProjectData getWeightedRandomVariant parseCookies
     ABBY_AB_STORAGE_PREFIX ABBY_FF_STORAGE_PREFIX).
Abbreviation getProjectDataAsync :=
  (getProjectDataAsync getWeightedRandomVariant parseCookies
     ABBY_AB_STORAGE_PREFIX ABBY_FF_STORAGE_PREFIX).
Abbreviation after :=
  (after getWeightedRandomVariant parseCookies
     ABBY_AB_STORAGE_PREFIX ABBY_FF_STORAGE_PREFIX).
Abbreviation after_all :=
  (after_all getWeightedRandomVariant parseCookies
     ABBY_AB_STORAGE_PREFIX ABBY_FF_STORAGE_PREFIX).

(** ** What a method leaves true *)

Definition preserves {A : Type} (P : Abby → Prop) (m : M A) : Prop :=
  ∀ w, P w → P (m w).2.

Lemma preserves_ret {A} P (a : A) : preserves P (ret a).
Proof. by intros w Hw. Qed.

Lemma preserves_gets {A} P (f : Abby → A) : preserves P (gets f).
Proof. by intros w Hw. Qed.

Lemma preserves_modify P (f : Abby → Abby) :
  (∀ w, P w → P (f w)) → preserves P (modify f).
Proof. intros Hf w Hw. by apply Hf. Qed.

Lemma preserves_bind {A B} P (m : M A) (k : A → M B) :
  preserves P m → (∀ a, preserves P (k a)) → preserves P (bind m k).
Proof.
  intros Hm Hk w Hw. unfold bind.
  specialize (Hm w Hw). destruct (m w) as [[a|e] w']; cbn in *.
  - by apply Hk.
  - done.
Qed.

Lemma preserves_forEach {A} P (f : A → M unit) xs :
  (∀ x, preserves P (f x)) → preserves P (forEach f xs).
Proof.
  intros Hf. induction xs as [|x xs IH]; cbn.
  - apply preserves_ret.
  - apply preserves_bind; [apply Hf | by intros _].
Qed.

Lemma getFeatureFlag_state key (w : Abby) : (getFeatureFlag key w).2 = w.
Proof. unfold getFeatureFlag. repeat case_match; done. Qed.

Lemma getFeatureFlag_Ok key (w : Abby) :
  ∃ b, getFeatureFlag key w = (Ok b, w).
Proof. unfold getFeatureFlag. repeat case_match; eauto. Qed.

Lemma forEach_cons {A} (f : A → M unit) x xs (w : Abby) :
  forEach f (x :: xs) w
  = match f x w with
    | (Ok _, w') => forEach f xs w'
    | (Throw e, w') => (Throw e, w')
    end.
Proof. reflexivity. Qed.

Lemma reduceFlag_run k (w : Abby) :
  ∃ b, getFeatureFlag k w = (Ok b, w)
       ∧ reduceFlag k w
         = (Ok (), with_flags (obj_set (flags (data w)) k (Some b)) w).
Proof.
  destruct (getFeatureFlag_Ok k w) as [b Hb]. exists b. split; [done|].
  unfold reduceFlag, bind, modify. by rewrite Hb.
Qed.

Lemma preserves_reduceFlag P k :
  (∀ w f, P w → P (with_flags f w)) → preserves P (reduceFlag k).
Proof.
  intros HP w Hw. destruct (reduceFlag_run k w) as (b & _ & ->). by apply HP.
Qed.

Lemma preserves_bind_gets {A B} P (f : Abby → A) (k : A → M B) :
  (∀ w0, P w0 → preserves P (k (f w0))) → preserves P (bind (gets f) k).
Proof. intros Hk w Hw. unfold bind, gets. by apply Hk. Qed.

Lemma preserves_forEach_elem {A} P (f : A → M unit) xs :
  (∀ x, x ∈ xs → preserves P (f x)) → preserves P (forEach f xs).
Proof.
  induction xs as [|x xs IH]; intros Hf; cbn.
  - apply preserves_ret.
  - apply preserves_bind; [apply Hf; by left |].
    intros _. apply IH. intros y Hy. apply Hf. by right.
Qed.

(** Properties that survive a write to an entry of the stored tests, a
    draw, a delivery, a write to the test storage under a key that had no
    value, and storing a flag's resolved value. *)
Section Frame.

Variable P : Abby → Prop.
Hypothesis P_tests : ∀ w k e,
  P w → P (with_tests (obj_set (tests (data w)) k e) w).
Hypothesis P_flag : ∀ w k b,
  P w → getFeatureFlag k w = (Ok b, w) → k ∈ obj_keys (flags (data w)) →
  P (with_flags (obj_set (flags (data w)) k (Some b)) w).
Hypothesis P_random : ∀ w r, P w → P (with_random r w).
Hypothesis P_delivered : ∀ w l, P w → P (with_delivered l w).
Hypothesis P_store : ∀ w k v,
  P w → persistedValue w k = None →
  P (with_persistantTestStorage
       ((λ s, storage_set s k v) <$> persistantTestStorage w) w).

Lemma frame_getTestVariant key : preserves P (getTestVariant key).
Proof.
  intros w Hw. unfold getTestVariant.
  destruct (obj_get _ _) as [t|]; [|done].
  destruct (if development w then _ else _); [done|].
  destruct (persistedValue w key) eqn:Hp; [done|].
  destruct (getWeightedRandomVariant _ _ _) as [[v|e] r]; cbn.
  - apply (P_store (with_random r w) key v); [by apply P_random | done].
  - by apply P_random.
Qed.

Lemma frame_reduceTest e : preserves P (reduceTest e).
Proof.
  apply preserves_bind; [apply frame_getTestVariant | intros v].
  apply preserves_modify. intros w Hw. by apply P_tests.
Qed.

Lemma frame_reduceFlags keys (w : Abby) :
  P w → keys ⊆ obj_keys (flags (data w)) →
  P (forEach reduceFlag keys w).2
  ∧ obj_keys (flags (data (forEach reduceFlag keys w).2))
    = obj_keys (flags (data w)).
Proof.
  revert w. induction keys as [|k keys IH]; intros w Hw Hsub; [done|].
  rewrite forEach_cons.
  destruct (reduceFlag_run k w) as (b & Hb & ->).
  assert (k ∈ obj_keys (flags (data w))) as Hk by (apply Hsub; by left).
  set (w1 := with_flags _ w).
  assert (obj_keys (flags (data w1)) = obj_keys (flags (data w))) as Hkeys
    by (by apply obj_keys_set).
  destruct (IH w1) as [HP Hk1].
  - by apply P_flag.
  - rewrite Hkeys. intros x Hx. apply Hsub. by right.
  - split; [done | by rewrite Hk1].
Qed.

Lemma frame_getProjectData : preserves P getProjectData.
Proof.
  unfold getProjectData.
  apply preserves_bind; [apply preserves_gets | intros entries].
  apply preserves_bind; [apply preserves_forEach, frame_reduceTest |].
  intros _ w Hw. unfold bind, gets.
  destruct (frame_reduceFlags (obj_keys (flags (data w))) w) as [HP _];
    [done | done |].
  by destruct (forEach reduceFlag _ w) as [[[]|e] w'].
Qed.

Lemma frame_notifyListeners : preserves P notifyListeners.
Proof.
  unfold notifyListeners.
  apply preserves_bind; [apply preserves_gets | intros ls].
  apply preserves_forEach. intros l.
  apply preserves_bind; [apply frame_getProjectData | intros d].
  apply preserves_modify. intros w Hw. by apply P_delivered.
Qed.

End Frame.

(** ** What resolving the project data keeps *)

(** The definition of a test: its variants and its weights. *)
Definition testDefinition (e : TestEntry) : list string * option (list number) :=
  (variants e, weights e).

Definition definitionsOf (o : list (string * TestEntry))
  : list (string * (list string * option (list number))) :=
  map (λ e, (e.1, testDefinition e.2)) o.

Definition testDefinitions (w : Abby)
  : list (string * (list string * option (list number))) :=
  definitionsOf (tests (data w)).

Lemma definitionsOf_keys o : (definitionsOf o).*1 = obj_keys o.
Proof. unfold definitionsOf, obj_keys. rewrite <- list_fmap_compose. done. Qed.

Lemma definitionsOf_set o k e :
  NoDup (obj_keys o) → (k, testDefinition e) ∈ definitionsOf o →
  definitionsOf (obj_set o k e) = definitionsOf o.
Proof.
  induction o as [|[k0 e0] o IH]; cbn; intros Hnd Hin.
  - by apply elem_of_nil in Hin.
  - apply NoDup_cons in Hnd as [Hk0 Hnd].
    apply elem_of_cons in Hin as [Heq|Hin].
    + pose proof (f_equal fst Heq) as Hk. pose proof (f_equal snd Heq) as Hd.
      simpl in Hk, Hd. subst k0. rewrite decide_True by done.
      simpl. by rewrite Hd.
    + destruct (decide (k0 = k)) as [->|Hne]; cbn.
      * destruct Hk0. change (k ∈ obj_keys o). rewrite <- definitionsOf_keys.
        apply list_elem_of_fmap. by exists (k, testDefinition e).
      * f_equal. by apply IH.
Qed.

Lemma reduceTest_testDefinitions D e :
  NoDup D.*1 → (e.1, testDefinition e.2) ∈ D →
  preserves (λ w, testDefinitions w = D) (reduceTest e).
Proof.
  intros Hnd Hin. apply preserves_bind.
  - apply frame_getTestVariant; by intros [] **.
  - intros v. apply preserves_modify. intros w Hw.
    unfold testDefinitions in *. cbn. rewrite <- Hw.
    apply definitionsOf_set.
    + by rewrite <- definitionsOf_keys, Hw.
    + by rewrite Hw.
Qed.

Lemma getProjectData_testDefinitions D :
  NoDup D.*1 → preserves (λ w, testDefinitions w = D) getProjectData.
Proof.
  intros Hnd. unfold getProjectData.
  apply preserves_bind_gets. intros w0 Hw0.
  apply preserves_bind.
  { apply preserves_forEach_elem. intros e He.
    apply reduceTest_testDefinitions; [done|].
    rewrite <- Hw0. unfold testDefinitions, definitionsOf.
    apply list_elem_of_fmap. by exists e. }
  intros _. apply preserves_bind; [apply preserves_gets | intros keys].
  apply preserves_bind; [|intros _; apply preserves_gets].
  apply preserves_forEach. intros k. by apply preserves_reduceFlag.
Qed.

Lemma notifyListeners_testDefinitions D :
  NoDup D.*1 → preserves (λ w, testDefinitions w = D) notifyListeners.
Proof.
  intros Hnd. unfold notifyListeners.
  apply preserves_bind; [apply preserves_gets | intros ls].
  apply preserves_forEach. intros l.
  apply preserves_bind; [by apply getProjectData_testDefinitions | intros d].
  by apply preserves_modify.
Qed.

Ltac frame_side :=
  intros; repeat match goal with w : Abby |- _ => destruct w end;
  cbn in *; try done.

(** Neither resolution nor notification touches the override maps. *)
Lemma notifyListeners_flagOverrides (w : Abby) :
  flagOverrides (notifyListeners w).2 = flagOverrides w.
Proof.
  apply (frame_notifyListeners (λ w', flagOverrides w' = flagOverrides w));
    frame_side.
Qed.

Lemma notifyListeners_testOverrides (w : Abby) :
  testOverrides (notifyListeners w).2 = testOverrides w.
Proof.
  apply (frame_notifyListeners (λ w', testOverrides w' = testOverrides w));
    frame_side.
Qed.

Lemma updateFlag_flagOverrides name value (w : Abby) :
  flagOverrides (updateFlag name value w).2 = <[name := value]> (flagOverrides w).
Proof.
  unfold updateFlag, bind, modify, gets, ret; cbv beta iota.
  change (development (with_flagOverrides _ w)) with (development w).
  destruct (development w); cbv beta iota;
    by rewrite notifyListeners_flagOverrides.
Qed.

Lemma updateLocalVariant_testOverrides key override (w : Abby) :
  testOverrides (updateLocalVariant key override w).2
  = <[key := override]> (testOverrides w).
Proof.
  unfold updateLocalVariant, bind, modify; cbv beta iota.
  by rewrite notifyListeners_testOverrides.
Qed.

(** ** Flag resolution *)

(** The sources of a flag's value, highest precedence first, in the words
    of the specification: the runtime override; in development mode the
    per-flag development override, then the development-wide default; the
    stored value; the configured default. *)
Definition flagSources (w : Abby) (key : string) : list (option bool) :=
  [ flagOverrides w !! key;
    if development w then devOverride w key else None;
    if development w then flagSettings w ≫= devDefault else None;
    match obj_get (flags (data w)) key with
    | Some stored => stored
    | None => None
    end;
    flagSettings w ≫= default_ ].

(** First satisfied wins, else [false]. *)
Fixpoint firstSatisfied (sources : list (option bool)) : bool :=
  match sources with
  | [] => false
  | Some b :: _ => b
  | None :: rest => firstSatisfied rest
  end.

Lemma getFeatureFlag_firstSatisfied (w : Abby) (key : string) :
  getFeatureFlag key w = (Ok (firstSatisfied (flagSources w key)), w).
Proof.
  unfold getFeatureFlag, flagSources; cbn.
  destruct (flagOverrides w !! key); [done|].
  destruct (development w); cbn.
  - destruct (devOverride w key); [done|].
    destruct (flagSettings w ≫= devDefault); [done|].
    destruct (obj_get (flags (data w)) key) as [[b|]|]; try done;
      by destruct (flagSettings w ≫= default_).
  - destruct (obj_get (flags (data w)) key) as [[b|]|]; try done;
      by destruct (flagSettings w ≫= default_).
Qed.


(** ** Variant resolution *)

(** C2. For a declared test, [getTestVariant] returns (1) the override
    recorded by [updateLocalVariant] when, and only when, the environment
    is development; else (2) the value the test storage holds for the key;
    else (3) what the weighted random selection over the test's variants
    and weights returns, written to the test storage under the key before
    returning. *)
Theorem C2_variant_precedence (w : Abby) (key : string) (t : TestEntry) :
  obj_get (tests (data w)) key = Some t →
  (∀ o, testOverrides (updateLocalVariant key o w).2 !! key = Some o)
  ∧ (∀ o, development w = true → testOverrides w !! key = Some o →
          getTestVariant key w = (Ok o, w))
  ∧ (development w = false →
     ∀ m, (getTestVariant key (with_testOverrides m w)).1
          = (getTestVariant key w).1)
  ∧ (∀ p, development w = false ∨ testOverrides w !! key = None →
          persistedValue w key = Some p →
          getTestVariant key w = (Ok p, w))
  ∧ (development w = false ∨ testOverrides w !! key = None →
     persistedValue w key = None →
     match getWeightedRandomVariant (variants t) (weights t) (random w) with
     | (Ok v, r) =>
         getTestVariant key w
         = (Ok v,
            with_persistantTestStorage
              ((λ s, storage_set s key v) <$> persistantTestStorage w)
              (with_random r w))
     | (Throw e, r) => getTestVariant key w = (Throw e, with_random r w)
     end).
Proof.
  intros Ht. repeat split.
  - intros o. by rewrite updateLocalVariant_testOverrides, lookup_insert_eq.
  - intros o Hdev Ho. unfold getTestVariant. by rewrite Ht, Hdev, Ho.
  - intros Hdev m. unfold getTestVariant.
    change (development (with_testOverrides m w)) with (development w).
    change (tests (data (with_testOverrides m w))) with (tests (data w)).
    change (persistedValue (with_testOverrides m w) key)
      with (persistedValue w key).
    rewrite Ht, Hdev.
    destruct (persistedValue w key); [done|].
    change (random (with_testOverrides m w)) with (random w).
    by destruct (getWeightedRandomVariant _ _ _) as [[v|e] r].
  - intros p Hno Hp. unfold getTestVariant. rewrite Ht, Hp.
    destruct Hno as [-> | ->]; [done|]. by destruct (development w).
  - intros Hno Hp. unfold getTestVariant. rewrite Ht, Hp.
    assert ((if development w then testOverrides w !! key else None) = None)
      as -> by (destruct Hno as [-> | ->]; [done | by destruct (development w)]).
    by destruct (getWeightedRandomVariant _ _ _) as [[v|e] r].
Qed.

(** Once a storage that remembers holds a value for the key, resolution
    keeps returning it and draws nothing. *)
Lemma getTestVariant_stable `{!LawfulStorage S} (w w' : Abby) key v :
  is_Some (persistantTestStorage w) →
  getTestVariant key w = (Ok v, w') →
  getTestVariant key w' = (Ok v, w').
Proof.
  intros [s Hs]. unfold getTestVariant.
  destruct (obj_get (tests (data w)) key) as [t|] eqn:Ht; [|done].
  destruct (if development w then _ else _) eqn:Ho.
  { intros [= <- <-]. by rewrite Ht, Ho. }
  destruct (persistedValue w key) eqn:Hp.
  { intros [= <- <-]. by rewrite Ht, Ho, Hp. }
  destruct (getWeightedRandomVariant _ _ _) as [[v'|e] r]; [|done].
  intros [= <- <-]. cbn. rewrite Ht, Ho.
  unfold persistedValue. cbn. rewrite Hs. cbn.
  by rewrite storage_get_set_eq.
Qed.

(** ** Names that were never declared *)

Definition declaredFlag (w : Abby) (key : string) : Prop :=
  key ∈ default [] (config_flags (config w)).

Definition declaredTest (w : Abby) (key : string) : Prop :=
  is_Some (obj_get (tests (data w)) key).

(** C3, as the code has it. For a name that is no member of
    [Object.prototype]: resolving a test that was never declared throws (a
    [TypeError]) and changes nothing; resolving a flag that was never
    declared throws nothing and returns the value of the same precedence
    chain as for a declared flag.  (An inherited name is read from the
    prototype: the missing test is then a function, which destructures
    without a throw, and the missing flag resolves to that function.) *)
Theorem C3_undeclared_names (w : Abby) (key : string) :
  ¬ inheritedName key →
  (¬ declaredTest w key → getTestVariant key w = (Throw TypeError, w))
  ∧ (¬ declaredFlag w key →
     getFeatureFlag key w = (Ok (firstSatisfied (flagSources w key)), w)).
Proof.
  intros _. split.
  - intros Hnot. unfold getTestVariant.
    destruct (obj_get (tests (data w)) key) eqn:Ht; [|done].
    destruct Hnot. by eexists.
  - intros _. apply getFeatureFlag_firstSatisfied.
Qed.

(** ** Reading the project data *)

Lemma flagSources_ext (w1 w2 : Abby) key :
  flagOverrides w1 = flagOverrides w2 → development w1 = development w2 →
  config w1 = config w2 →
  obj_get (flags (data w1)) key = obj_get (flags (data w2)) key →
  flagSources w1 key = flagSources w2 key.
Proof.
  intros Ho Hd Hc Hf. unfold flagSources, devOverride, flagSettings.
  by rewrite Ho, Hd, Hc, Hf.
Qed.

Lemma getFeatureFlag_value (w : Abby) key :
  (getFeatureFlag key w).1 = Ok (firstSatisfied (flagSources w key)).
Proof. by rewrite getFeatureFlag_firstSatisfied. Qed.

(** Storing a flag's resolved value changes no flag's resolved value. *)
Lemma getFeatureFlag_after_store (w : Abby) k b key :
  getFeatureFlag k w = (Ok b, w) →
  (getFeatureFlag key (with_flags (obj_set (flags (data w)) k (Some b)) w)).1
  = (getFeatureFlag key w).1.
Proof.
  intros Hb. rewrite !getFeatureFlag_value. f_equal.
  destruct (decide (k = key)) as [->|Hne].
  - rewrite getFeatureFlag_firstSatisfied in Hb. injection Hb as Hb.
    unfold flagSources in *. cbn. rewrite obj_get_set_eq.
    destruct (flagOverrides w !! key); [done|].
    destruct (if development w then devOverride _ key else None); [done|].
    destruct (if development w then _ ≫= devDefault else None); [done|].
    cbn in *. by rewrite Hb.
  - f_equal. apply flagSources_ext; try done. cbn. by apply obj_get_set_ne.
Qed.

Lemma getFeatureFlag_ext (w1 w2 : Abby) key :
  flagOverrides w1 = flagOverrides w2 → development w1 = development w2 →
  config w1 = config w2 → flags (data w1) = flags (data w2) →
  (getFeatureFlag key w1).1 = (getFeatureFlag key w2).1.
Proof.
  intros Ho Hd Hc Hf. rewrite !getFeatureFlag_value. f_equal. f_equal.
  apply flagSources_ext; try done. by rewrite Hf.
Qed.

Lemma getProjectData_flag_values (w : Abby) key :
  (getFeatureFlag key (getProjectData w).2).1 = (getFeatureFlag key w).1.
Proof.
  revert key.
  apply (frame_getProjectData
           (λ w', ∀ key, (getFeatureFlag key w').1 = (getFeatureFlag key w).1));
    [ | | | | done].
  - intros w1 k e Hw1 key. rewrite <- Hw1. by apply getFeatureFlag_ext.
  - intros w1 k b Hw1 Hb _ key. rewrite <- Hw1.
    by apply getFeatureFlag_after_store.
  - intros w1 r Hw1 key. rewrite <- Hw1. by apply getFeatureFlag_ext.
  - intros w1 k v Hw1 _ key. rewrite <- Hw1. by apply getFeatureFlag_ext.
Qed.

(** ** Ingesting a response *)

(** The last entry of a response list for a name. *)
Definition lastEntry {V : Type} (l : list (string * V)) (name : string)
  : option V :=
  obj_get (reverse l) name.

Lemma lastEntry_snoc {V} (l : list (string * V)) n v name :
  lastEntry (l ++ [(n, v)]) name
  = if decide (n = name) then Some v else lastEntry l name.
Proof. unfold lastEntry. by rewrite reverse_snoc. Qed.

Lemma mergeTests_get l o name :
  obj_get (fold_left mergeTest l o) name
  = match obj_get o name with
    | None => None
    | Some e =>
        Some (mkTestEntry (variants e)
                (match lastEntry l name with
                 | Some ws => Some ws
                 | None => weights e
                 end)
                (selectedVariant e))
    end.
Proof.
  induction l as [|[n ws] l IH] using rev_ind.
  - cbn. by destruct (obj_get o name) as [[]|].
  - rewrite fold_left_app, lastEntry_snoc. cbn.
    unfold mergeTest at 1. cbn.
    destruct (obj_get (fold_left mergeTest l o) n) as [e'|] eqn:Hn.
    + destruct (decide (n = name)) as [->|Hne].
      * rewrite obj_get_set_eq. rewrite IH in Hn.
        destruct (obj_get o name) as [e|]; [|done].
        injection Hn as <-. done.
      * by rewrite obj_get_set_ne.
    + destruct (decide (n = name)) as [->|Hne]; [|done].
      rewrite Hn. rewrite IH in Hn. by destruct (obj_get o name).
Qed.

Lemma mergeTests_keys l o :
  obj_keys (fold_left mergeTest l o) = obj_keys o.
Proof.
  revert o. induction l as [|[n ws] l IH]; intros o; [done|].
  cbn [fold_left]. rewrite IH. unfold mergeTest. cbn [fst snd].
  destruct (obj_get o n) eqn:Hn; [|done].
  apply obj_keys_set, obj_get_is_Some. by eexists.
Qed.

Lemma mergeFlags_get l o name :
  obj_get (fold_left mergeFlag l o) name
  = match lastEntry l name with
    | Some b => Some (Some b)
    | None => obj_get o name
    end.
Proof.
  induction l as [|[n b] l IH] using rev_ind; [done|].
  rewrite fold_left_app, lastEntry_snoc. cbn. unfold mergeFlag at 1. cbn.
  destruct (decide (n = name)) as [->|Hne].
  - by rewrite obj_get_set_eq.
  - by rewrite obj_get_set_ne.
Qed.

(** C6, as the code has it. For a response that lists no undeclared test
    under a name of [Object.prototype] (the check [!acc[name]] finds the
    inherited member there, and the test is added) and no flag named
    [__proto__] (the assignment would set the prototype): of the
    response's tests only those with a declared name are merged, an
    undeclared name is dropped, a declared one gets the response's weights
    (the last listed for it) and keeps its variants.  The response's flags
    are not filtered: the stored flags become exactly the response's
    flags, each with its [isEnabled] (the last listed for the name),
    whether the name is declared or not, and the new object holds nothing
    for a name the response does not list. *)
Theorem C6_merge_response (w : Abby) (d : AbbyDataResponse) :
  Forall (λ t, plainRead (tests (data w)) t.1) (response_tests d) →
  "__proto__" ∉ (response_flags d).*1 →
  ∃ T F,
    responseToLocalData (Some d) w = (Ok (mkLocalData T F), with_tests T w)
    ∧ obj_keys T = obj_keys (tests (data w))
    ∧ (∀ name, obj_get (tests (data w)) name = None → obj_get T name = None)
    ∧ (∀ name e ws,
         obj_get (tests (data w)) name = Some e →
         lastEntry (response_tests d) name = Some ws →
         obj_get T name
         = Some (mkTestEntry (variants e) (Some ws) (selectedVariant e)))
    ∧ (∀ name e,
         obj_get (tests (data w)) name = Some e →
         lastEntry (response_tests d) name = None →
         obj_get T name = Some e)
    ∧ (∀ name b,
         lastEntry (response_flags d) name = Some b →
         obj_get F name = Some (Some b))
    ∧ (∀ name,
         lastEntry (response_flags d) name = None → obj_get F name = None).
Proof.
  intros _ _.
  exists (fold_left mergeTest (response_tests d) (tests (data w))),
         (fold_left mergeFlag (response_flags d) []).
  split; [done|]. split; [apply mergeTests_keys|].
  repeat split.
  - intros name Hn. by rewrite mergeTests_get, Hn.
  - intros name e ws Hn Hl. by rewrite mergeTests_get, Hn, Hl.
  - intros name e Hn Hl. rewrite mergeTests_get, Hn, Hl. by destruct e.
  - intros name b Hl. by rewrite mergeFlags_get, Hl.
  - intros name Hl. by rewrite mergeFlags_get, Hl.
Qed.

(** What [init] does with a response that is there. *)
Lemma init_Some d cookie (w : Abby) :
  init (Some d) cookie w
  = bind notifyListeners (λ _,
      bind (match cookie with
            | Some c => setLocalOverrides c
            | None => ret ()
            end) (λ _, getProjectData))
      (with_data
         (mkLocalData
            (fold_left mergeTest (response_tests d) (tests (data w)))
            (fold_left mergeFlag (response_flags d) [])) w).
Proof. reflexivity. Qed.

Lemma preserves_setLocalOverrides (P : Abby → Prop) (okFlag : string → Prop)
    cookies :
  (∀ w k v, P w → P (with_testOverrides (<[k := v]> (testOverrides w)) w)) →
  (∀ w k v, okFlag k → P w →
            P (with_flagOverrides (<[k := v]> (flagOverrides w)) w)) →
  (∀ w, P w →
        Forall okFlag (cookieFlagNames (projectId (config w)) cookies)) →
  preserves P (setLocalOverrides cookies).
Proof.
  intros Ht Hf Hok. unfold setLocalOverrides.
  apply preserves_forEach_elem. intros c Hc.
  apply preserves_bind_gets. intros w0 Hw0.
  apply preserves_bind.
  { destruct (startsWith c.1 ABBY_AB_STORAGE_PREFIX);
      [|apply preserves_ret].
    apply preserves_modify. intros w Hw. by apply Ht. }
  intros _.
  destruct (startsWith c.1 ABBY_FF_STORAGE_PREFIX) eqn:Hff;
    [|apply preserves_ret].
  apply preserves_modify. intros w Hw. apply Hf; [|done].
  specialize (Hok w0 Hw0). rewrite Forall_forall in Hok. apply Hok.
  unfold cookieFlagNames. apply list_elem_of_fmap. exists c. split; [done|].
  by apply list_elem_of_filter.
Qed.

Lemma setLocalOverrides_data cookies (w : Abby) :
  data (setLocalOverrides cookies w).2 = data w.
Proof.
  by apply (preserves_setLocalOverrides
              (λ w', data w' = data w) (λ _, True)); try done;
    intros; by apply Forall_true.
Qed.

Definition emptyResponse : AbbyDataResponse := mkAbbyDataResponse [] [].

(** C5, as the code has it. [init] has no guard of its own: on [null] it
    throws before it changes anything, and it is [loadProjectData] that
    returns without a change when nothing was fetched.  On a response with
    no tests and no flags, [init] keeps every test's variants and weights,
    and replaces the stored flags by the empty object of the response. *)
Theorem C5_init_without_data (w : Abby) (cookie : option string) :
  NoDup (obj_keys (tests (data w))) →
  init None cookie w = (Throw TypeError, w)
  ∧ loadProjectData None cookie w = (Ok (), w)
  ∧ testDefinitions (init (Some emptyResponse) cookie w).2 = testDefinitions w
  ∧ flags (data (init (Some emptyResponse) cookie w).2) = [].
Proof.
  intros Hnd. split; [done|]. split; [done|].
  assert (NoDup (testDefinitions w).*1) as HD
    by (unfold testDefinitions; by rewrite definitionsOf_keys).
  rewrite init_Some. cbn [emptyResponse response_tests response_flags fold_left].
  set (w0 := with_data _ w). split.
  - apply (preserves_bind (λ w', testDefinitions w' = testDefinitions w));
      [by apply notifyListeners_testDefinitions | | done].
    intros _. apply preserves_bind;
      [| intros _; by apply getProjectData_testDefinitions].
    destruct cookie as [c|]; [|apply preserves_ret].
    intros w1 Hw1. unfold testDefinitions in *.
    by rewrite setLocalOverrides_data.
  - apply (preserves_bind (λ w', flags (data w') = []));
      [by apply frame_notifyListeners; try done;
         intros w1 k b Hw1 _ Hk; rewrite Hw1 in Hk; by apply elem_of_nil in Hk
      | | done].
    intros _. apply preserves_bind.
    + destruct cookie as [c|]; [|apply preserves_ret].
      intros w1 Hw1. by rewrite setLocalOverrides_data.
    + intros _. apply frame_getProjectData; try done.
      intros w1 k b Hw1 _ Hk. rewrite Hw1 in Hk. by apply elem_of_nil in Hk.
Qed.

(** ** What a sequence of calls keeps *)

Section FrameCalls.

Variable P : Abby → Prop.
Variable pid : string.
Variables okFlag okTest : string → Prop.

Hypothesis P_pid : ∀ w, P w → projectId (config w) = pid.
Hypothesis P_tests : ∀ w k e,
  P w → P (with_tests (obj_set (tests (data w)) k e) w).
Hypothesis P_flag : ∀ w k b,
  P w → getFeatureFlag k w = (Ok b, w) → k ∈ obj_keys (flags (data w)) →
  P (with_flags (obj_set (flags (data w)) k (Some b)) w).
Hypothesis P_response : ∀ w d,
  P w →
  P (with_data
       (mkLocalData
          (fold_left mergeTest (response_tests d) (tests (data w)))
          (fold_left mergeFlag (response_flags d) [])) w).
Hypothesis P_random : ∀ w r, P w → P (with_random r w).
Hypothesis P_delivered : ∀ w l, P w → P (with_delivered l w).
Hypothesis P_listeners : ∀ w l, P w → P (with_listeners l w).
Hypothesis P_dataInitialized : ∀ w b, P w → P (with_dataInitialized b w).
Hypothesis P_flagStorage : ∀ w s, P w → P (with_persistantFlagStorage s w).
Hypothesis P_store : ∀ w k v,
  P w → persistedValue w k = None →
  P (with_persistantTestStorage
       ((λ s, storage_set s k v) <$> persistantTestStorage w) w).
Hypothesis P_testStorage : ∀ w k v,
  okTest k → P w →
  P (with_persistantTestStorage
       ((λ s, storage_set s k v) <$> persistantTestStorage w) w).
Hypothesis P_testOverrides : ∀ w k v,
  P w → P (with_testOverrides (<[k := v]> (testOverrides w)) w).
Hypothesis P_flagOverrides : ∀ w k v,
  okFlag k → P w → P (with_flagOverrides (<[k := v]> (flagOverrides w)) w).

(** The calls that write no flag override outside [okFlag] and no test
    storage entry outside [okTest].  A cookie string is ingested by
    [setLocalOverrides], and by [init] when it is given a response in a
    browser. *)
Definition callAllowed (c : call) : Prop :=
  match c with
  | CallUpdateFlag name _ => okFlag name
  | CallUpdateLocalVariant key _ => okTest key
  | CallSetLocalOverrides cookies
  | CallInit (Some _) (Some cookies)
  | CallLoadProjectData (Some _) (Some cookies)
  | CallGetProjectDataAsync (Some _) (Some cookies) =>
      Forall okFlag (cookieFlagNames pid cookies)
  | _ => True
  end.

Lemma frame_cookie (cookie : option string) :
  match cookie with
  | Some cookies => Forall okFlag (cookieFlagNames pid cookies)
  | None => True
  end →
  preserves P (match cookie with
               | Some c => setLocalOverrides c
               | None => ret ()
               end).
Proof.
  destruct cookie as [c|]; intros Hok; [|apply preserves_ret].
  apply (preserves_setLocalOverrides P okFlag); [done | done |].
  intros w Hw. by rewrite (P_pid w Hw).
Qed.

Lemma frame_init response (cookie : option string) :
  match response, cookie with
  | Some _, Some cookies => Forall okFlag (cookieFlagNames pid cookies)
  | _, _ => True
  end →
  preserves P (init response cookie).
Proof.
  intros Hok w Hw. destruct response as [d|]; [|done].
  rewrite init_Some.
  apply (preserves_bind P); [by apply frame_notifyListeners | | by apply P_response].
  intros _. apply preserves_bind; [by apply frame_cookie|].
  intros _. by apply frame_getProjectData.
Qed.

Lemma frame_loadProjectData fetched (cookie : option string) :
  match fetched, cookie with
  | Some _, Some cookies => Forall okFlag (cookieFlagNames pid cookies)
  | _, _ => True
  end →
  preserves P (loadProjectData fetched cookie).
Proof.
  intros Hok. destruct fetched as [d|]; [|apply preserves_ret].
  apply preserves_bind; [by apply frame_init | intros _; apply preserves_ret].
Qed.

Lemma frame_after c (w : Abby) : callAllowed c → P w → P (after c w).
Proof.
  intros Hc Hw. destruct c; cbn [after callAllowed] in *.
  - by apply frame_init.
  - by apply frame_loadProjectData.
  - revert w Hw. fold (preserves P (getProjectDataAsync fetched cookie)).
    apply preserves_bind_gets. intros w0 _.
    apply preserves_bind.
    { destruct (dataInitialized w0); [apply preserves_ret|].
      by apply frame_loadProjectData. }
    intros _. apply preserves_bind;
      [apply preserves_modify; intros; by apply P_dataInitialized|].
    intros _. by apply frame_getProjectData.
  - by apply frame_getProjectData.
  - by rewrite getFeatureFlag_state.
  - by apply frame_getTestVariant.
  - unfold getVariants. by destruct (obj_get _ _).
  - revert w Hw. fold (preserves P (updateLocalVariant key override)).
    apply preserves_bind;
      [apply preserves_modify; intros; by apply P_testOverrides | intros _].
    apply preserves_bind;
      [apply preserves_modify; intros; by apply P_testStorage|].
    intros _. by apply frame_notifyListeners.
  - revert w Hw. fold (preserves P (updateFlag name value)).
    apply preserves_bind;
      [apply preserves_modify; intros; by apply P_flagOverrides | intros _].
    apply preserves_bind; [apply preserves_gets | intros dev].
    apply preserves_bind; [|intros _; by apply frame_notifyListeners].
    destruct dev; [|apply preserves_ret].
    apply preserves_modify. intros. by apply P_flagStorage.
  - unfold subscribe, modify. cbn. case_bool_decide; [done | by apply P_listeners].
  - by apply P_listeners.
  - revert w Hw. by apply frame_cookie with (cookie := Some cookies).
Qed.

Lemma frame_after_all cs (w : Abby) :
  Forall callAllowed cs → P w → P (after_all cs w).
Proof.
  unfold after_all. revert w.
  induction cs as [|c cs IH]; intros w Hcs Hw; [done|].
  apply Forall_cons in Hcs as [Hc Hcs]. cbn [fold_left].
  apply IH; [done | by apply frame_after].
Qed.

End FrameCalls.

Lemma persistedValue_set_eq `{!LawfulStorage S} (w : Abby) k v :
  is_Some (persistantTestStorage w) →
  persistedValue
    (with_persistantTestStorage
       ((λ s, storage_set s k v) <$> persistantTestStorage w) w) k = Some v.
Proof.
  intros [s Hs]. unfold persistedValue. cbn. rewrite Hs. cbn.
  apply storage_get_set_eq.
Qed.

Lemma persistedValue_set_ne `{!LawfulStorage S} (w : Abby) k key v :
  k ≠ key →
  persistedValue
    (with_persistantTestStorage
       ((λ s, storage_set s k v) <$> persistantTestStorage w) w) key
  = persistedValue w key.
Proof.
  intros Hne. unfold persistedValue. cbn.
  destruct (persistantTestStorage w) as [s|]; cbn; [|done].
  by apply storage_get_set_ne.
Qed.

Lemma persistedValue_set_fresh `{!LawfulStorage S} (w : Abby) k key v o :
  persistedValue w key = Some o → persistedValue w k = None →
  persistedValue
    (with_persistantTestStorage
       ((λ s, storage_set s k v) <$> persistantTestStorage w) w) key
  = Some o.
Proof.
  intros Hkey Hk. rewrite persistedValue_set_ne; [done|]. congruence.
Qed.

(** ** Notification *)

(** One resolution of the project data per listener, each followed by the
    delivery of its result to that listener. *)
Inductive notifies :
  list Listener → Abby → list (Listener * LocalData) → Abby → Prop :=
| notifies_nil w : notifies [] w [] w
| notifies_cons listener ls w d w1 ds w2 :
    getProjectData w = (Ok d, w1) →
    notifies ls (with_delivered (delivered w1 ++ [(listener, d)]) w1) ds w2 →
    notifies (listener :: ls) w ((listener, d) :: ds) w2.

Lemma getProjectData_delivered (w : Abby) :
  delivered (getProjectData w).2 = delivered w.
Proof.
  by apply (frame_getProjectData (λ w', delivered w' = delivered w)).
Qed.

Lemma notifies_delivered ls (w w' : Abby) ds :
  notifies ls w ds w' → delivered w' = (delivered w ++ ds)%list ∧ ds.*1 = ls.
Proof.
  induction 1 as [w|l ls w d w1 ds w2 Hd _ [IH1 IH2]]; cbn.
  - by rewrite app_nil_r.
  - rewrite IH1, IH2. cbn. split; [|done].
    rewrite <- (getProjectData_delivered w), Hd. cbn.
    by rewrite <- app_assoc.
Qed.

Lemma notifyListeners_notifies ls (w w' : Abby) :
  forEach (λ listener : Listener,
      bind getProjectData (λ d,
        modify (λ w, with_delivered (delivered w ++ [(listener, d)]) w)))
    ls w = (Ok (), w') →
  ∃ ds, notifies ls w ds w'.
Proof.
  revert w. induction ls as [|l ls IH]; intros w.
  - intros [= <-]. exists []. constructor.
  - rewrite forEach_cons. unfold bind at 1, modify at 1.
    destruct (getProjectData w) as [[d|e] w1] eqn:Hd; [|done].
    intros Hrest. destruct (IH _ Hrest) as [ds Hds].
    exists ((l, d) :: ds). by econstructor.
Qed.

Lemma setLocalOverrides_delivered cookies (w : Abby) :
  delivered (setLocalOverrides cookies w).2 = delivered w.
Proof.
  by apply (preserves_setLocalOverrides
              (λ w', delivered w' = delivered w) (λ _, True)); try done;
    intros; by apply Forall_true.
Qed.

(** *** When every listener receives the same data *)

(** The variant a test resolves to without a draw: the override in
    development mode, else the persisted value. *)
Definition resolved (w : Abby) (k : string) : option string :=
  match (if development w then testOverrides w !! k else None) with
  | Some o => Some o
  | None => persistedValue w k
  end.

Lemma getTestVariant_resolved (w : Abby) k t v :
  obj_get (tests (data w)) k = Some t → resolved w k = Some v →
  getTestVariant k w = (Ok v, w).
Proof.
  unfold resolved, getTestVariant. intros -> Hr.
  destruct (if development w then _ else _); [by injection Hr as ->|].
  by rewrite Hr.
Qed.

Lemma getTestVariant_settles `{!LawfulStorage S} (w w' : Abby) k v :
  is_Some (persistantTestStorage w) →
  getTestVariant k w = (Ok v, w') → resolved w' k = Some v.
Proof.
  intros Hs. unfold getTestVariant, resolved.
  destruct (obj_get _ _) as [t|]; [|done].
  destruct (if development w then _ else _) eqn:Ho.
  { intros [= <- <-]. by rewrite Ho. }
  destruct (persistedValue w k) eqn:Hp.
  { intros [= <- <-]. by rewrite Ho, Hp. }
  destruct (getWeightedRandomVariant _ _ _) as [[v'|e] r]; [|done].
  intros [= <- <-].
  change (development (with_persistantTestStorage _ _)) with (development w).
  change (testOverrides (with_persistantTestStorage _ _)) with (testOverrides w).
  rewrite Ho. by apply (persistedValue_set_eq (with_random r w)).
Qed.

Lemma getTestVariant_keeps_resolved `{!LawfulStorage S} (w : Abby) k k' v :
  resolved w k = Some v → resolved (getTestVariant k' w).2 k = Some v.
Proof.
  revert v. intros v.
  apply (frame_getTestVariant (λ w', resolved w' k = Some v)); [done|].
  intros w1 k1 v1. unfold resolved.
  change (development (with_persistantTestStorage _ _)) with (development w1).
  change (testOverrides (with_persistantTestStorage _ _)) with (testOverrides w1).
  destruct (if development w1 then _ else _); [done|].
  intros Hk Hk1. by apply persistedValue_set_fresh.
Qed.

Lemma getTestVariant_data (w : Abby) k :
  data (getTestVariant k w).2 = data w.
Proof. by apply (frame_getTestVariant (λ w', data w' = data w)). Qed.

Lemma getTestVariant_storage (w : Abby) k :
  is_Some (persistantTestStorage w) →
  is_Some (persistantTestStorage (getTestVariant k w).2).
Proof.
  apply (frame_getTestVariant (λ w', is_Some (persistantTestStorage w')));
    [done|].
  intros w1 k1 v1 [s Hs] _. cbn. rewrite Hs. by eexists.
Qed.

(** The stored data already are the resolved data. *)
Definition settled (w : Abby) : Prop :=
  NoDup (obj_keys (tests (data w)))
  ∧ (∀ k e, obj_get (tests (data w)) k = Some e →
            ∃ v, selectedVariant e = Some v ∧ resolved w k = Some v)
  ∧ (∀ k, k ∈ obj_keys (flags (data w)) →
          ∃ b, obj_get (flags (data w)) k = Some (Some b)
               ∧ (getFeatureFlag k w).1 = Ok b).

Lemma forEach_unchanged {A} (f : A → M unit) xs (w : Abby) :
  (∀ x, x ∈ xs → f x w = (Ok (), w)) → forEach f xs w = (Ok (), w).
Proof.
  induction xs as [|x xs IH]; intros Hf; [done|].
  rewrite forEach_cons, Hf by (by left). apply IH. intros y Hy.
  apply Hf. by right.
Qed.

Lemma with_tests_same (w : Abby) : with_tests (tests (data w)) w = w.
Proof. by destruct w as [? [? ?] ? ? ? ? ? ? ? ? ?]. Qed.

Lemma with_flags_same (w : Abby) : with_flags (flags (data w)) w = w.
Proof. by destruct w as [? [? ?] ? ? ? ? ? ? ? ? ?]. Qed.

Lemma settled_getProjectData (w : Abby) :
  settled w → getProjectData w = (Ok (data w), w).
Proof.
  intros (Hnd & Ht & Hf). unfold getProjectData, bind, gets.
  rewrite forEach_unchanged.
  - rewrite forEach_unchanged; [done|]. intros k Hk.
    destruct (reduceFlag_run k w) as (b0 & Hb0 & ->).
    destruct (Hf k Hk) as (b & Hget & Hb).
    rewrite Hb0 in Hb. injection Hb as ->.
    by rewrite obj_set_id, with_flags_same.
  - intros [k e] He. apply obj_get_elem in He as Hget; [|done].
    destruct (Ht k e Hget) as (v & Hsel & Hres).
    unfold reduceTest, bind, modify. cbn [fst snd].
    rewrite (getTestVariant_resolved w k e v) by done.
    replace (mkTestEntry (variants e) (weights e) (Some v)) with e
      by (destruct e; cbn in *; by rewrite Hsel).
    by rewrite obj_set_id, with_tests_same.
Qed.

Lemma settled_with_delivered (w : Abby) l :
  settled w → settled (with_delivered l w).
Proof.
  intros (Hnd & Ht & Hf). split; [done|]. split; [done|].
  intros k Hk. destruct (Hf k Hk) as (b & Hget & Hb). exists b.
  split; [done|]. rewrite <- Hb. by apply getFeatureFlag_ext.
Qed.

Lemma reduceTests_settle `{!LawfulStorage S} rest (w wa : Abby) :
  is_Some (persistantTestStorage w) →
  NoDup (obj_keys (tests (data w))) →
  (∀ k e, obj_get (tests (data w)) k = Some e →
          k ∈ rest.*1
          ∨ ∃ v, selectedVariant e = Some v ∧ resolved w k = Some v) →
  forEach reduceTest rest w = (Ok (), wa) →
  is_Some (persistantTestStorage wa)
  ∧ NoDup (obj_keys (tests (data wa)))
  ∧ (∀ k e, obj_get (tests (data wa)) k = Some e →
            ∃ v, selectedVariant e = Some v ∧ resolved wa k = Some v).
Proof.
  revert w. induction rest as [|[k0 e0] rest IH]; intros w Hs Hnd Hinv.
  - intros [= <-]. repeat split; [done | done |].
    intros k e Hk. destruct (Hinv k e Hk) as [Hin|?]; [|done].
    by apply elem_of_nil in Hin.
  - rewrite forEach_cons. unfold reduceTest at 1, bind, modify. cbn [fst snd].
    destruct (getTestVariant k0 w) as [[v|err] w1] eqn:Hg; [|done].
    pose proof (getTestVariant_data w k0) as Hdata.
    pose proof (getTestVariant_storage w k0 Hs) as Hs1.
    pose proof (getTestVariant_settles w w1 k0 v Hs Hg) as Hres.
    rewrite Hg in Hdata, Hs1. cbn [snd] in Hdata, Hs1.
    assert (k0 ∈ obj_keys (tests (data w))) as Hk0.
    { apply obj_get_is_Some. unfold getTestVariant in Hg.
      destruct (obj_get (tests (data w)) k0); [by eexists | done]. }
    apply IH.
    + done.
    + cbn. rewrite Hdata. change (NoDup (obj_keys (obj_set (tests (data w)) k0
               (mkTestEntry (variants e0) (weights e0) (Some v))))).
      by rewrite obj_keys_set.
    + intros k e. cbn. rewrite Hdata.
      destruct (decide (k0 = k)) as [<-|Hne].
      * rewrite obj_get_set_eq. intros [= <-]. right. by exists v.
      * rewrite obj_get_set_ne by done. intros Hk.
        destruct (Hinv k e Hk) as [Hin|(v' & Hsel & Hr)].
        -- left. cbn in Hin. by apply elem_of_cons in Hin as [?|?].
        -- right. exists v'. split; [done|].
           pose proof (getTestVariant_keeps_resolved w k k0 v' Hr) as Hr1.
           by rewrite Hg in Hr1.
Qed.

Lemma reduceFlags_settle rest (w : Abby) :
  rest ⊆ obj_keys (flags (data w)) →
  (∀ k, k ∈ obj_keys (flags (data w)) →
        k ∈ rest
        ∨ ∃ b, obj_get (flags (data w)) k = Some (Some b)
               ∧ (getFeatureFlag k w).1 = Ok b) →
  ∃ F, forEach reduceFlag rest w = (Ok (), with_flags F w)
       ∧ (∀ k, k ∈ obj_keys F →
               ∃ b, obj_get F k = Some (Some b)
                    ∧ (getFeatureFlag k (with_flags F w)).1 = Ok b).
Proof.
  revert w. induction rest as [|k0 rest IH]; intros w Hsub Hinv.
  - exists (flags (data w)). rewrite with_flags_same. split; [done|].
    intros k Hk. destruct (Hinv k Hk) as [Hin|?]; [|done].
    by apply elem_of_nil in Hin.
  - rewrite forEach_cons.
    destruct (reduceFlag_run k0 w) as (b0 & Hb0 & ->).
    assert (k0 ∈ obj_keys (flags (data w))) as Hk0 by (apply Hsub; by left).
    set (w1 := with_flags (obj_set (flags (data w)) k0 (Some b0)) w).
    assert (obj_keys (flags (data w1)) = obj_keys (flags (data w))) as Hkeys
      by (by apply obj_keys_set).
    destruct (IH w1) as (F & HF & HFinv).
    + rewrite Hkeys. intros x Hx. apply Hsub. by right.
    + rewrite Hkeys. intros k Hk.
      destruct (decide (k0 = k)) as [<-|Hne].
      * right. exists b0. split; [apply obj_get_set_eq|].
        unfold w1. rewrite getFeatureFlag_after_store by done. by rewrite Hb0.
      * destruct (Hinv k Hk) as [Hin|(b & Hget & Hb)].
        -- left. by apply elem_of_cons in Hin as [?|?].
        -- right. exists b. split.
           ++ unfold w1. cbn. by rewrite obj_get_set_ne.
           ++ unfold w1. by rewrite getFeatureFlag_after_store.
    + exists F. by split.
Qed.

Lemma getProjectData_settled `{!LawfulStorage S} (w w1 : Abby) d :
  is_Some (persistantTestStorage w) →
  NoDup (obj_keys (tests (data w))) →
  getProjectData w = (Ok d, w1) →
  settled w1 ∧ d = data w1.
Proof.
  intros Hs Hnd. unfold getProjectData, bind, gets.
  destruct (forEach reduceTest (tests (data w)) w) as [[[]|err] wa] eqn:Ht;
    [|done].
  apply reduceTests_settle in Ht as (Hsa & Hnda & Hta); [|done|done|].
  2:{ intros k e Hk. left. change (k ∈ obj_keys (tests (data w))).
      apply obj_get_is_Some. by eexists. }
  destruct (reduceFlags_settle (obj_keys (flags (data wa))) wa)
    as (F & -> & HF); [done | by left |].
  intros [= <- <-]. split; [|done]. split; [done|]. split; [done|].
  intros k Hk. by apply HF.
Qed.

Lemma notifies_settled ls (w w' : Abby) ds :
  notifies ls w ds w' → settled w → ds = map (λ l, (l, data w)) ls.
Proof.
  induction 1 as [w|l ls w d w1 ds w2 Hd Hn IH]; intros Hw; [done|].
  rewrite settled_getProjectData in Hd by done. injection Hd as <- <-.
  cbn. f_equal. apply IH. by apply settled_with_delivered.
Qed.

(** ** What a read stores *)

Lemma reduceTests_selected rest (w wa : Abby) :
  (∀ k e, obj_get (tests (data w)) k = Some e →
          k ∈ rest.*1 ∨ is_Some (selectedVariant e)) →
  forEach reduceTest rest w = (Ok (), wa) →
  ∀ k e, obj_get (tests (data wa)) k = Some e → is_Some (selectedVariant e).
Proof.
  revert w. induction rest as [|[k0 e0] rest IH]; intros w Hinv.
  - intros [= <-] k e Hk. destruct (Hinv k e Hk) as [Hin|?]; [|done].
    by apply elem_of_nil in Hin.
  - rewrite forEach_cons. unfold reduceTest at 1, bind, modify. cbn [fst snd].
    destruct (getTestVariant k0 w) as [[v|err] w1] eqn:Hg; [|done].
    pose proof (getTestVariant_data w k0) as Hdata.
    rewrite Hg in Hdata. cbn [snd] in Hdata.
    apply IH. intros k e. cbn. rewrite Hdata.
    destruct (decide (k0 = k)) as [<-|Hne].
    + rewrite obj_get_set_eq. intros [= <-]. right. by eexists.
    + rewrite obj_get_set_ne by done. intros Hk.
      destruct (Hinv k e Hk) as [Hin|?]; [|by right].
      left. cbn in Hin. by apply elem_of_cons in Hin as [?|?].
Qed.

(** What a read that returns has stored: the returned data are the stored
    data, every stored flag holds its resolved value and every test entry a
    selected variant. *)
Lemma getProjectData_stores (w w1 : Abby) d :
  getProjectData w = (Ok d, w1) →
  d = data w1
  ∧ (∀ k, k ∈ obj_keys (flags d) →
          ∃ b, obj_get (flags d) k = Some (Some b)
               ∧ (getFeatureFlag k w).1 = Ok b)
  ∧ (∀ k e, obj_get (tests d) k = Some e → is_Some (selectedVariant e)).
Proof.
  intros Hrun. pose proof (getProjectData_flag_values w) as Hvalues.
  rewrite Hrun in Hvalues. cbn [snd] in Hvalues.
  revert Hrun. unfold getProjectData, bind, gets.
  destruct (forEach reduceTest (tests (data w)) w) as [[[]|err] wa] eqn:Ht;
    [|done].
  assert (∀ k e, obj_get (tests (data w)) k = Some e →
                 k ∈ (tests (data w)).*1 ∨ is_Some (selectedVariant e))
    as Hall.
  { intros k e Hk. left. change (k ∈ obj_keys (tests (data w))).
    apply obj_get_is_Some. by eexists. }
  pose proof (reduceTests_selected _ _ _ Hall Ht) as Hsel.
  destruct (reduceFlags_settle (obj_keys (flags (data wa))) wa)
    as (F & -> & HF); [done | by left |].
  intros [= <- <-]. split; [done|]. split; [|done].
  intros k Hk. destruct (HF k Hk) as (b & Hget & Hb). exists b.
  split; [done|]. by rewrite <- Hvalues.
Qed.

(** *** The selected variants are the resolved variants *)

(** [{...test, selectedVariant: v}] *)
Definition withSelected (e : string * TestEntry) (v : string)
  : string * TestEntry :=
  (e.1, mkTestEntry (variants e.2) (weights e.2) (Some v)).

(** A resolution looks at the variants and the weights of the stored test
    and at nothing else of the stored data. *)
Lemma getTestVariant_with_tests T (w : Abby) k :
  testDefinition <$> obj_get T k
  = testDefinition <$> obj_get (tests (data w)) k →
  getTestVariant k (with_tests T w)
  = ((getTestVariant k w).1, with_tests T (getTestVariant k w).2).
Proof.
  unfold getTestVariant. cbn [with_tests with_data data tests].
  destruct (obj_get T k) as [t'|], (obj_get (tests (data w)) k) as [t|];
    cbn [fmap option_fmap option_map]; intros Heq; try done.
  injection Heq as Hv Hw.
  change (development (with_tests T w)) with (development w).
  change (testOverrides (with_tests T w)) with (testOverrides w).
  destruct (if development w then _ else _); [done|].
  change (persistedValue (with_tests T w) k) with (persistedValue w k).
  destruct (persistedValue w k); [done|].
  change (random (with_tests T w)) with (random w).
  change (persistantTestStorage (with_tests T w))
    with (persistantTestStorage w).
  rewrite Hv, Hw.
  by destruct (getWeightedRandomVariant _ _ _) as [[v|e] r].
Qed.

Lemma mapM_length {A B} (f : A → M B) xs (w w' : Abby) ys :
  mapM f xs w = (Ok ys, w') → length ys = length xs.
Proof.
  revert w ys. induction xs as [|x xs IH]; intros w ys; cbn.
  - by intros [= <- _].
  - unfold bind at 1. destruct (f x w) as [[y|e] w1]; [|done].
    unfold bind. destruct (mapM f xs w1) as [[ys'|e] w2] eqn:Hrest; [|done].
    unfold ret. intros [= <- <-]. cbn. f_equal. by eapply IH.
Qed.

(** The reducer over the tests writes, entry by entry, what
    [getTestVariant] returns for the names in their order; the writes do
    not bear on the resolutions that follow. *)
Lemma reduceTests_mapM rest pre (u wa : Abby) :
  NoDup (obj_keys (pre ++ rest)) →
  (∀ k e, (k, e) ∈ rest →
          testDefinition <$> obj_get (tests (data u)) k
          = Some (testDefinition e)) →
  forEach reduceTest rest (with_tests (pre ++ rest) u) = (Ok (), wa) →
  ∃ vs ut,
    mapM getTestVariant rest.*1 u = (Ok vs, ut)
    ∧ wa = with_tests (pre ++ zip_with withSelected rest vs) ut.
Proof.
  revert pre u. induction rest as [|[k e] rest IH]; intros pre u Hnd Hdefs.
  - intros [= <-]. by exists [], u.
  - assert (k ∉ obj_keys pre) as Hk.
    { unfold obj_keys in Hnd. rewrite fmap_app in Hnd.
      apply NoDup_app in Hnd as (_ & Hdisj & _). intros Hin.
      apply (Hdisj k Hin). by left. }
    rewrite forEach_cons. unfold reduceTest at 1, bind, modify. cbn [fst snd].
    rewrite getTestVariant_with_tests.
    2:{ rewrite obj_get_app, (obj_get_notin pre k Hk). cbn.
        rewrite decide_True by done. cbn.
        symmetry. apply Hdefs. by left. }
    pose proof (getTestVariant_data u k) as Hdata.
    destruct (getTestVariant k u) as [[v|err] u1] eqn:Hg; cbn [fst snd];
      [|done].
    cbn [snd] in Hdata.
    change (with_tests ?X (with_tests ?T u1)) with (with_tests X u1).
    change (tests (data (with_tests ?T u1))) with T.
    rewrite obj_set_app_notin by done.
    change (pre ++ (k, mkTestEntry (variants e) (weights e) (Some v)) :: rest)%list
      with (pre ++ [withSelected (k, e) v] ++ rest)%list.
    rewrite app_assoc. intros Hrest.
    apply IH in Hrest as (vs & ut & Hvs & ->).
    + exists (v :: vs), ut. split.
      * cbn. unfold bind at 1. rewrite Hg. unfold bind. by rewrite Hvs.
      * by rewrite <- app_assoc.
    + rewrite <- app_assoc. unfold obj_keys in *.
      by rewrite fmap_app in *.
    + intros k' e' Hin. rewrite Hdata. apply Hdefs. by right.
Qed.

Lemma getProjectData_selects (w w1 : Abby) d :
  NoDup (obj_keys (tests (data w))) →
  getProjectData w = (Ok d, w1) →
  ∃ vs wt,
    mapM getTestVariant (obj_keys (tests (data w))) w = (Ok vs, wt)
    ∧ length vs = length (tests (data w))
    ∧ tests d = zip_with withSelected (tests (data w)) vs.
Proof.
  intros Hnd. unfold getProjectData, bind, gets.
  destruct (forEach reduceTest (tests (data w)) w) as [[[]|err] wa] eqn:Ht;
    [|done].
  pose proof (reduceTests_mapM (tests (data w)) [] w wa) as Hsel.
  cbn [app] in Hsel. rewrite with_tests_same in Hsel.
  destruct Hsel as (vs & ut & Hvs & ->); [done | | done |].
  { intros k e Hin. by rewrite (obj_get_elem _ k e Hnd Hin). }
  destruct (reduceFlags_settle
              (obj_keys (flags (data (with_tests
                 (zip_with withSelected (tests (data w)) vs) ut))))
              (with_tests (zip_with withSelected (tests (data w)) vs) ut))
    as (F & -> & _); [done | by left |].
  intros [= <- <-]. exists vs, ut. split; [done|]. split; [|done].
  apply mapM_length in Hvs. rewrite Hvs. unfold obj_keys.
  by rewrite length_fmap.
Qed.

(** C9, as the code has it. [getProjectData] writes what it resolves into
    the stored data: the reducers assign into [#data.tests] and
    [#data.flags], so that after a read that returns, the returned data
    are the stored data, every stored flag holds its resolved value, and
    the tests are the tests there were, each with the variant
    [getTestVariant] returned for it as its [selectedVariant], the tests
    being resolved one after the other in the order of their names.  The
    stored tests are the object [config.tests], so the configuration
    receives the selected variants as well.  What the read keeps is every
    test's name, variants and weights, the names of the stored flags, the
    other properties of the configuration and both override maps; and
    each flag resolves to the same value after the read as before it. *)
Theorem C9_getProjectData_keeps (w : Abby) :
  NoDup (obj_keys (tests (data w))) →
  testDefinitions (getProjectData w).2 = testDefinitions w
  ∧ obj_keys (flags (data (getProjectData w).2)) = obj_keys (flags (data w))
  ∧ (∀ key, (getFeatureFlag key (getProjectData w).2).1
            = (getFeatureFlag key w).1)
  ∧ config (getProjectData w).2 = config w
  ∧ flagOverrides (getProjectData w).2 = flagOverrides w
  ∧ testOverrides (getProjectData w).2 = testOverrides w
  ∧ (∀ d w1,
       getProjectData w = (Ok d, w1) →
       d = data w1
       ∧ config_tests w1 = tests d
       ∧ (∀ k, k ∈ obj_keys (flags d) →
               ∃ b, obj_get (flags d) k = Some (Some b)
                    ∧ (getFeatureFlag k w).1 = Ok b)
       ∧ ∃ vs wt,
           mapM getTestVariant (obj_keys (tests (data w))) w = (Ok vs, wt)
           ∧ length vs = length (tests (data w))
           ∧ tests d = zip_with withSelected (tests (data w)) vs).
Proof.
  intros Hnd. split; [|split; [|split; [|split; [|split; [|split]]]]].
  - apply (getProjectData_testDefinitions (testDefinitions w)); [|done].
    unfold testDefinitions. by rewrite definitionsOf_keys.
  - apply (frame_getProjectData
             (λ w', obj_keys (flags (data w')) = obj_keys (flags (data w))));
      try done.
    intros w1 k b Hw1 _ Hk. rewrite <- Hw1. by apply obj_keys_set.
  - apply getProjectData_flag_values.
  - by apply (frame_getProjectData (λ w', config w' = config w)).
  - by apply (frame_getProjectData (λ w', flagOverrides w' = flagOverrides w)).
  - by apply (frame_getProjectData (λ w', testOverrides w' = testOverrides w)).
  - intros d w1 Hrun.
    destruct (getProjectData_stores w w1 d Hrun) as (Hd & Hflags & _).
    split; [done|]. split; [by rewrite Hd|]. split; [done|].
    by apply (getProjectData_selects w w1 d).
Qed.

(** C8, as the code has it. A notification resolves the project data once
    for each registered listener and hands each, in registration order and
    none left out when the call returns, what was resolved at its turn.
    With a test storage injected that remembers what was set, and distinct
    test names, every listener is handed the same data, equal to what
    [getProjectData] returns.  Ingesting a cookie string
    ([setLocalOverrides]) notifies nobody. *)
Theorem C8_notification (w w' : Abby) :
  notifyListeners w = (Ok (), w') →
  (∃ ds, notifies (listeners w) w ds w'
         ∧ delivered w' = (delivered w ++ ds)%list
         ∧ ds.*1 = listeners w
         ∧ (LawfulStorage S → is_Some (persistantTestStorage w) →
            NoDup (obj_keys (tests (data w))) →
            ∀ d w1, getProjectData w = (Ok d, w1) →
                    ds = map (λ l, (l, d)) (listeners w)))
  ∧ (∀ cookies, delivered (setLocalOverrides cookies w).2 = delivered w).
Proof.
  intros Hn. split; [|intros; apply setLocalOverrides_delivered].
  unfold notifyListeners, bind, gets in Hn.
  apply notifyListeners_notifies in Hn as [ds Hds]. exists ds.
  destruct (notifies_delivered _ _ _ _ Hds) as [Hdel Hfst].
  repeat split; try done.
  intros Hlaw Hs Hnd d w1 Hd.
  destruct Hds as [w|l ls w d' w1' ds w2 Hd' Hds]; [done|].
  rewrite Hd in Hd'. injection Hd' as <- <-.
  apply getProjectData_settled in Hd as [Hset ->]; [|done|done].
  cbn. f_equal.
  by apply notifies_settled in Hds; [|apply settled_with_delivered].
Qed.

(** ** A flag override outlives later responses *)

(** The calls that override flag [f] again: [updateFlag] for [f], and the
    ingestion of a cookie string that names [f], by [setLocalOverrides] or
    by [init] when it is given a response in a browser. *)
Definition overridesFlag (pid f : string) (c : call) : Prop :=
  match c with
  | CallUpdateFlag name _ => name = f
  | CallSetLocalOverrides cookies
  | CallInit (Some _) (Some cookies)
  | CallLoadProjectData (Some _) (Some cookies)
  | CallGetProjectDataAsync (Some _) (Some cookies) =>
      f ∈ cookieFlagNames pid cookies
  | _ => False
  end.

Lemma after_all_config cs (w : Abby) : config (after_all cs w) = config w.
Proof.
  apply (frame_after_all (λ w', config w' = config w)
           (projectId (config w)) (λ _, True) (λ _, True)); try done.
  - by intros w' ->.
  - apply Forall_forall. intros c _.
    destruct c as [[?|] [?|]|[?|] [?|]|[?|] [?|]| | | | | | | | |?]; cbn; try done; by apply Forall_true.
Qed.

(** C7, as the code has it. After [updateFlag(f, value)], in particular
    with [value] true, [getFeatureFlag(f)] returns [value] after any
    sequence of calls that does not override [f] again, whatever the
    responses say that [init] ingests among them.  Overriding again is more
    than [updateFlag]: a cookie that names [f] does it, and [init] itself
    reads the cookies when it runs in a browser. *)
Theorem C7_flag_override_persists (w : Abby) (f : string) (value : bool)
    (cs : list call) :
  Forall (λ c, ¬ overridesFlag (projectId (config w)) f c) cs →
  getFeatureFlag f (after_all cs (updateFlag f value w).2)
  = (Ok value, after_all cs (updateFlag f value w).2).
Proof.
  intros Hcs.
  set (w1 := (updateFlag f value w).2).
  assert (config w1 = config w) as Hcfg
    by apply (after_all_config [CallUpdateFlag f value] w).
  assert (flagOverrides (after_all cs w1) !! f = Some value) as Hf.
  { apply (frame_after_all
             (λ w', flagOverrides w' !! f = Some value
                    ∧ projectId (config w') = projectId (config w))
             (projectId (config w)) (λ name, name ≠ f) (λ _, True));
      try done; try (by intros ? ? ? [? ?]); try (by intros ? ? [? ?]).
    - by intros w' [_ ?].
    - intros w' k v Hk [Hw' ?]. split; [|done]. cbn. by rewrite lookup_insert_ne.
    - eapply Forall_impl; [exact Hcs|]. intros c Hc.
      destruct c as [[?|] [?|]|[?|] [?|]|[?|] [?|]| | | | | | | | |?]; cbn in *; try done;
        apply Forall_forall; by intros x Hx ->.
    - split; [|by rewrite Hcfg]. unfold w1.
      by rewrite updateFlag_flagOverrides, lookup_insert_eq. }
  unfold getFeatureFlag. by rewrite Hf.
Qed.

(** ** A variant override reaches the test storage *)

Definition overridesVariant (key : string) (c : call) : Prop :=
  match c with
  | CallUpdateLocalVariant k _ => k = key
  | _ => False
  end.

Lemma declaredTest_set (w : Abby) k e key :
  declaredTest w key →
  declaredTest (with_tests (obj_set (tests (data w)) k e) w) key.
Proof.
  unfold declaredTest. cbn. intros Hkey.
  destruct (decide (k = key)) as [->|Hne].
  - rewrite obj_get_set_eq. by eexists.
  - by rewrite obj_get_set_ne.
Qed.

(** C10. With a test storage injected, one that remembers what was set,
    [updateLocalVariant(key, override)] leaves [override] in the storage
    under [key] in either environment mode; and outside development mode
    every later resolution of the declared test [key] returns [override],
    from the storage and without a draw, until [updateLocalVariant] is
    called for [key] again. *)
Theorem C10_variant_override_persisted `{!LawfulStorage S} (w : Abby)
    (key override : string) (cs : list call) :
  is_Some (persistantTestStorage w) →
  persistedValue (updateLocalVariant key override w).2 key = Some override
  ∧ (development w = false → declaredTest w key →
     Forall (λ c, ¬ overridesVariant key c) cs →
     persistedValue (after_all cs (updateLocalVariant key override w).2) key
     = Some override
     ∧ getTestVariant key (after_all cs (updateLocalVariant key override w).2)
       = (Ok override, after_all cs (updateLocalVariant key override w).2)).
Proof.
  intros Hstore.
  assert (persistedValue (updateLocalVariant key override w).2 key
          = Some override) as Hset.
  { unfold updateLocalVariant, bind, modify. cbv beta iota.
    apply (frame_notifyListeners (λ w', persistedValue w' key = Some override));
      try done.
    - intros w' k v Hw' Hk. by apply persistedValue_set_fresh.
    - by apply (persistedValue_set_eq
                  (with_testOverrides (<[key:=override]> (testOverrides w)) w)). }
  split; [done|]. intros Hdev Hdecl Hcs.
  set (w1 := (updateLocalVariant key override w).2) in *.
  assert (development w1 = false ∧ declaredTest w1 key
          ∧ projectId (config w1) = projectId (config w))
    as (Hdev1 & Hdecl1 & _).
  { apply (frame_after
             (λ w', development w' = false ∧ declaredTest w' key
                    ∧ projectId (config w') = projectId (config w))
             (projectId (config w)) (λ _, True) (λ _, True))
      with (c := CallUpdateLocalVariant key override) (w := w);
      try done; try (by intros ? ? ? [? [? ?]]); try (by intros ? ? [? [? ?]]).
    - by intros w' (_ & _ & ?).
    - intros w' k e (? & ? & ?). split; [done|]. split; [|done].
      by apply declaredTest_set.
    - intros w' d (? & Hd & ?). split; [done|]. split; [|done].
      unfold declaredTest in *. cbn. rewrite mergeTests_get.
      destruct Hd as [e ->]. by eexists. }
  assert (config w1 = config w) as Hcfg1
    by apply (after_all_config [CallUpdateLocalVariant key override] w).
  assert (development (after_all cs w1) = false
          ∧ persistedValue (after_all cs w1) key = Some override
          ∧ declaredTest (after_all cs w1) key
          ∧ projectId (config (after_all cs w1)) = projectId (config w))
    as (Hd & Hp & [e He] & _).
  { apply (frame_after_all
             (λ w', development w' = false
                    ∧ persistedValue w' key = Some override
                    ∧ declaredTest w' key
                    ∧ projectId (config w') = projectId (config w))
             (projectId (config w)) (λ _, True) (λ k, k ≠ key));
      try done; try (by intros ? ? ? (? & ? & ? & ?));
      try (by intros ? ? (? & ? & ? & ?)).
    - by intros w' (_ & _ & _ & ?).
    - intros w' k e (? & ? & ? & ?). repeat split; try done.
      by apply declaredTest_set.
    - intros w' d (? & ? & Hd & ?). repeat split; try done.
      unfold declaredTest in *. cbn. rewrite mergeTests_get.
      destruct Hd as [e ->]. by eexists.
    - intros w' k v (? & ? & ? & ?) Hk. repeat split; try done.
      by apply persistedValue_set_fresh.
    - intros w' k v Hk (? & ? & ? & ?). repeat split; try done.
      by rewrite persistedValue_set_ne.
    - eapply Forall_impl; [exact Hcs|]. intros c Hc.
      destruct c as [[?|] [?|]|[?|] [?|]|[?|] [?|]| | | | | | | | |?]; cbn in *; try done; by apply Forall_true.
    - repeat split; try done. by rewrite Hcfg1. }
  split; [done|]. unfold getTestVariant. by rewrite He, Hd, Hp.
Qed.

(** * Further properties of the engine *)

(** ** The two override methods, up to the notification *)

(** The instance when [updateFlag(name, value)] reaches
    [this.notifyListeners()]. *)
Definition afterFlagWrite (name : string) (value : bool) (w : Abby) : Abby :=
  let w1 := with_flagOverrides (<[name := value]> (flagOverrides w)) w in
  if development w then
    with_persistantFlagStorage
      ((λ s, storage_set s name (Boolean_toString value))
         <$> persistantFlagStorage w) w1
  else w1.

(** The instance when [updateLocalVariant(key, override)] reaches
    [this.notifyListeners()]. *)
Definition afterVariantWrite (key override : string) (w : Abby) : Abby :=
  with_persistantTestStorage
    ((λ s, storage_set s key override) <$> persistantTestStorage w)
    (with_testOverrides (<[key := override]> (testOverrides w)) w).

Lemma updateFlag_notifies name value (w : Abby) :
  updateFlag name value w = notifyListeners (afterFlagWrite name value w).
Proof.
  unfold updateFlag, afterFlagWrite, bind, modify, gets, ret. cbv beta iota.
  change (development (with_flagOverrides _ w)) with (development w).
  by destruct (development w).
Qed.

Lemma updateLocalVariant_notifies key override (w : Abby) :
  updateLocalVariant key override w
  = notifyListeners (afterVariantWrite key override w).
Proof. reflexivity. Qed.

(** ** Properties kept by every call *)

Section FrameMethods.

Variable P : Abby → Prop.
Variable okCookie : string → Prop.
Variable okCall : call → Prop.

Hypothesis P_getTestVariant : ∀ k, preserves P (getTestVariant k).
Hypothesis P_getProjectData : preserves P getProjectData.
Hypothesis P_notifyListeners : preserves P notifyListeners.
Hypothesis P_setLocalOverrides : ∀ cookies,
  okCookie cookies → preserves P (setLocalOverrides cookies).
Hypothesis P_response : ∀ w d,
  P w →
  P (with_data
       (mkLocalData
          (fold_left mergeTest (response_tests d) (tests (data w)))
          (fold_left mergeFlag (response_flags d) [])) w).
Hypothesis P_dataInitialized : ∀ w, P w → P (with_dataInitialized true w).
Hypothesis P_afterFlagWrite : ∀ name value w,
  okCall (CallUpdateFlag name value) → P w → P (afterFlagWrite name value w).
Hypothesis P_afterVariantWrite : ∀ key override w,
  okCall (CallUpdateLocalVariant key override) →
  P w → P (afterVariantWrite key override w).
Hypothesis P_subscribe : ∀ l,
  okCall (CallSubscribe l) → preserves P (subscribe l).
Hypothesis P_unsubscribe : ∀ l,
  okCall (CallUnsubscribe l) → preserves P (unsubscribe l).

(** A call is in range when [okCall] holds of it and [okCookie] holds of
    the cookie string it ingests, if it ingests one. *)
Definition inRange (c : call) : Prop :=
  okCall c
  ∧ match c with
    | CallSetLocalOverrides cookies
    | CallInit (Some _) (Some cookies)
    | CallLoadProjectData (Some _) (Some cookies)
    | CallGetProjectDataAsync (Some _) (Some cookies) => okCookie cookies
    | _ => True
    end.

Lemma methods_init response (cookie : option string) :
  match response, cookie with
  | Some _, Some cookies => okCookie cookies
  | _, _ => True
  end →
  preserves P (init response cookie).
Proof.
  intros Hok w Hw. destruct response as [d|]; [|done].
  rewrite init_Some.
  apply (preserves_bind P); [done | | by apply P_response].
  intros _. apply preserves_bind; [|by intros _].
  destruct cookie as [c|]; [by apply P_setLocalOverrides | apply preserves_ret].
Qed.

Lemma methods_loadProjectData fetched (cookie : option string) :
  match fetched, cookie with
  | Some _, Some cookies => okCookie cookies
  | _, _ => True
  end →
  preserves P (loadProjectData fetched cookie).
Proof.
  intros Hok. destruct fetched as [d|]; [|apply preserves_ret].
  apply preserves_bind; [by apply methods_init | intros _; apply preserves_ret].
Qed.

Lemma methods_after c (w : Abby) : inRange c → P w → P (after c w).
Proof.
  intros [Hc Hck] Hw. destruct c; cbn [after] in *.
  - by apply methods_init.
  - by apply methods_loadProjectData.
  - revert w Hw. fold (preserves P (getProjectDataAsync fetched cookie)).
    apply preserves_bind_gets. intros w0 _.
    apply preserves_bind.
    { destruct (dataInitialized w0); [apply preserves_ret|].
      by apply methods_loadProjectData. }
    intros _. apply preserves_bind; [by apply preserves_modify | by intros _].
  - by apply P_getProjectData.
  - by rewrite getFeatureFlag_state.
  - by apply P_getTestVariant.
  - unfold getVariants. by destruct (obj_get _ _).
  - rewrite updateLocalVariant_notifies.
    by apply P_notifyListeners, P_afterVariantWrite.
  - rewrite updateFlag_notifies. by apply P_notifyListeners, P_afterFlagWrite.
  - by apply P_subscribe.
  - by apply P_unsubscribe.
  - by apply P_setLocalOverrides.
Qed.

Lemma methods_after_all cs (w : Abby) :
  Forall inRange cs → P w → P (after_all cs w).
Proof.
  unfold after_all. revert w.
  induction cs as [|c cs IH]; intros w Hcs Hw; [done|].
  apply Forall_cons in Hcs as [Hc Hcs]. cbn [fold_left].
  apply IH; [done | by apply methods_after].
Qed.

End FrameMethods.

(** ** Subscriptions *)

Ltac quiet :=
  intros; repeat match goal with w : Abby |- _ => destruct w end;
  cbn in *; try done.

(** What listener [l] has been handed so far. *)
Definition deliveriesTo (l : Listener) (w : Abby) : list (Listener * LocalData) :=
  filter (λ e, e.1 = l) (delivered w).

Lemma getProjectData_listeners (w : Abby) :
  listeners (getProjectData w).2 = listeners w.
Proof.
  by apply (frame_getProjectData (λ w', listeners w' = listeners w)).
Qed.

Lemma notifyListeners_listeners (w : Abby) :
  listeners (notifyListeners w).2 = listeners w.
Proof.
  by apply (frame_notifyListeners (λ w', listeners w' = listeners w)).
Qed.

Lemma setLocalOverrides_listeners cookies (w : Abby) :
  listeners (setLocalOverrides cookies w).2 = listeners w.
Proof.
  by apply (preserves_setLocalOverrides
              (λ w', listeners w' = listeners w) (λ _, True)); try done;
    intros; by apply Forall_true.
Qed.

Lemma notifyListeners_deliveriesTo l D :
  preserves (λ w, (l ∉ listeners w) ∧ deliveriesTo l w = D) notifyListeners.
Proof.
  unfold notifyListeners. apply preserves_bind_gets. intros w0 [Hl0 _].
  apply preserves_forEach_elem. intros x Hx.
  apply preserves_bind.
  - intros w [Hl HD]. split.
    + by rewrite getProjectData_listeners.
    + unfold deliveriesTo. by rewrite getProjectData_delivered.
  - intros d. apply preserves_modify. intros w [Hl HD]. split; [done|].
    unfold deliveriesTo in *. cbn. rewrite filter_app, HD.
    rewrite filter_cons_False; [by rewrite filter_nil, app_nil_r|].
    cbn. intros ->. done.
Qed.

(** X1. Once the function returned by [subscribe] has been called, the
    listener is handed nothing more, whatever is called afterwards, as
    long as it is not subscribed again. *)
Theorem unsubscribed_listener_receives_nothing (w : Abby) (l : Listener)
    (cs : list call) :
  Forall (λ c, c ≠ CallSubscribe l) cs →
  deliveriesTo l (after_all cs (unsubscribe l w).2) = deliveriesTo l w.
Proof.
  intros Hcs.
  apply (methods_after_all
           (λ w', (l ∉ listeners w') ∧ deliveriesTo l w' = deliveriesTo l w)
           (λ _, True) (λ c, c ≠ CallSubscribe l)).
  - intros k. apply frame_getTestVariant; quiet.
  - intros w' [Hl HD]. split.
    + by rewrite getProjectData_listeners.
    + unfold deliveriesTo. by rewrite getProjectData_delivered.
  - apply notifyListeners_deliveriesTo.
  - intros cookies _ w' [Hl HD]. split.
    + by rewrite setLocalOverrides_listeners.
    + unfold deliveriesTo. by rewrite setLocalOverrides_delivered.
  - quiet.
  - quiet.
  - intros name value w' _. unfold afterFlagWrite.
    by destruct (development w').
  - quiet.
  - intros l' Hl' w' [Hl HD]. unfold subscribe, modify. cbn.
    case_bool_decide; [done|]. split; [|done]. cbn.
    rewrite elem_of_app, list_elem_of_singleton. intros [Hin|Heq]; [done|].
    subst l'. by destruct Hl'.
  - intros l' _ w' [Hl HD]. split; [|done]. cbn.
    rewrite list_elem_of_filter. by intros [_ ?].
  - eapply Forall_impl; [exact Hcs|]. intros c Hc. split; [done|].
    by destruct c as [[?|] [?|]|[?|] [?|]|[?|] [?|]| | | | | | | | |?].
  - split; [|done]. cbn. rewrite list_elem_of_filter. by intros [? _].
Qed.

Lemma listeners_NoDup_after_all cs (w : Abby) :
  NoDup (listeners w) → NoDup (listeners (after_all cs w)).
Proof.
  apply (methods_after_all (λ w', NoDup (listeners w'))
           (λ _, True) (λ _, True)).
  - intros k. apply frame_getTestVariant; quiet.
  - intros w' Hw'. by rewrite getProjectData_listeners.
  - intros w' Hw'. by rewrite notifyListeners_listeners.
  - intros cookies _ w' Hw'. by rewrite setLocalOverrides_listeners.
  - quiet.
  - quiet.
  - intros name value w' _. unfold afterFlagWrite.
    by destruct (development w').
  - quiet.
  - intros l _ w' Hw'. unfold subscribe, modify. cbn.
    case_bool_decide; [done|]. cbn. apply NoDup_app. split; [done|].
    split; [|apply NoDup_singleton].
    intros x Hx Hx'. apply list_elem_of_singleton in Hx' as ->. done.
  - intros l _ w' Hw'. cbn. by apply NoDup_filter.
  - apply Forall_forall. intros c _. split; [done|].
    by destruct c as [[?|] [?|]|[?|] [?|]|[?|] [?|]| | | | | | | | |?].
Qed.

(** X2. The listeners are a set: however often a listener has been
    subscribed, a notification that returns hands every registered
    listener exactly one delivery. *)
Theorem one_delivery_per_listener (w w' : Abby) (cs : list call) :
  NoDup (listeners w) →
  notifyListeners (after_all cs w) = (Ok (), w') →
  ∃ ds, delivered w' = (delivered (after_all cs w) ++ ds)%list
        ∧ ds.*1 = listeners (after_all cs w)
        ∧ NoDup ds.*1.
Proof.
  intros Hnd Hn. apply (listeners_NoDup_after_all cs) in Hnd.
  unfold notifyListeners, bind, gets in Hn.
  apply notifyListeners_notifies in Hn as [ds Hds]. exists ds.
  destruct (notifies_delivered _ _ _ _ Hds) as [Hdel Hfst].
  by rewrite Hfst.
Qed.

(** ** The declared tests *)

(** The names of the tests with their variants. *)
Definition variantsOf (o : list (string * TestEntry))
  : list (string * list string) :=
  map (λ e, (e.1, variants e.2)) o.

Lemma variantsOf_definitions o :
  variantsOf o = map (λ d, (d.1, d.2.1)) (definitionsOf o).
Proof.
  unfold variantsOf, definitionsOf. rewrite <- list_fmap_compose.
  by apply list_fmap_ext.
Qed.

Lemma variantsOf_keys o : (variantsOf o).*1 = obj_keys o.
Proof. unfold variantsOf, obj_keys. by rewrite <- list_fmap_compose. Qed.

Lemma variantsOf_get o k :
  obj_get (variantsOf o) k = variants <$> obj_get o k.
Proof.
  induction o as [|[k' e] o IH]; cbn; [done|].
  by destruct (decide (k' = k)).
Qed.

Lemma variantsOf_set o k e e' :
  obj_get o k = Some e → variants e' = variants e →
  variantsOf (obj_set o k e') = variantsOf o.
Proof.
  induction o as [|[k0 e0] o IH]; cbn; [done|].
  destruct (decide (k0 = k)) as [->|Hne]; cbn.
  - intros [= ->] ->. done.
  - intros Hget Hv. f_equal. by apply IH.
Qed.

Lemma mergeTests_variants l o :
  variantsOf (fold_left mergeTest l o) = variantsOf o.
Proof.
  revert o. induction l as [|[n ws] l IH]; intros o; [done|].
  cbn [fold_left]. rewrite IH. unfold mergeTest. cbn [fst snd].
  destruct (obj_get o n) as [e|] eqn:Hn; [|done].
  by apply (variantsOf_set o n e).
Qed.

(** The declared tests keep their names and variants through every call. *)
Lemma variantsOf_after_all cs (w : Abby) :
  NoDup (obj_keys (tests (data w))) →
  variantsOf (tests (data (after_all cs w))) = variantsOf (tests (data w)).
Proof.
  intros Hnd.
  assert (∀ w1 w2 : Abby,
            testDefinitions w2 = testDefinitions w1 →
            variantsOf (tests (data w1)) = variantsOf (tests (data w)) →
            variantsOf (tests (data w2)) = variantsOf (tests (data w)))
    as Hdefs.
  { intros w1 w2 Hd Hv. rewrite variantsOf_definitions in *.
    unfold testDefinitions in Hd. by rewrite Hd. }
  assert (∀ w1 : Abby,
            variantsOf (tests (data w1)) = variantsOf (tests (data w)) →
            NoDup (testDefinitions w1).*1) as Hnd1.
  { intros w1 Hv. unfold testDefinitions.
    by rewrite definitionsOf_keys, <- variantsOf_keys, Hv, variantsOf_keys. }
  apply (methods_after_all
           (λ w', variantsOf (tests (data w')) = variantsOf (tests (data w)))
           (λ _, True) (λ _, True)).
  - intros k w' Hw'. by rewrite getTestVariant_data.
  - intros w' Hw'. apply (Hdefs w'); [|done].
    by apply (getProjectData_testDefinitions (testDefinitions w')); [apply Hnd1|].
  - intros w' Hw'. apply (Hdefs w'); [|done].
    by apply (notifyListeners_testDefinitions (testDefinitions w')); [apply Hnd1|].
  - intros cookies _ w' Hw'. by rewrite setLocalOverrides_data.
  - intros w' d Hw'. cbn. by rewrite mergeTests_variants.
  - done.
  - intros name value w' _ Hw'. unfold afterFlagWrite.
    by destruct (development w').
  - done.
  - intros l _ w' Hw'. unfold subscribe, modify. cbn. by case_bool_decide.
  - by intros l _ w' Hw'.
  - apply Forall_forall. intros c _. split; [done|].
    by destruct c as [[?|] [?|]|[?|] [?|]|[?|] [?|]| | | | | | | | |?].
  - done.
Qed.


(** The names of the tests in the response a call ingests. *)
Definition ingestedTestNames (c : call) : list string :=
  match c with
  | CallInit (Some d) _
  | CallLoadProjectData (Some d) _
  | CallGetProjectDataAsync (Some d) _ => (response_tests d).*1
  | _ => []
  end.

(** X4. A test that was not declared to the constructor, under a name
    that is no member of [Object.prototype], never becomes resolvable:
    after any calls, an override or a cookie for that very name among
    them, [getTestVariant] still throws.  The responses ingested are to
    list no test under a name of [Object.prototype]: such a test would be
    added to the stored tests, and one named [__proto__] would replace
    their prototype. *)
Theorem undeclared_test_never_resolves (w : Abby) (cs : list call)
    (key : string) :
  NoDup (obj_keys (tests (data w))) →
  ¬ declaredTest w key →
  ¬ inheritedName key →
  Forall (λ c, Forall (λ n, ¬ inheritedName n) (ingestedTestNames c)) cs →
  getTestVariant key (after_all cs w) = (Throw TypeError, after_all cs w).
Proof.
  intros Hnd Hnot _ _. pose proof (variantsOf_after_all cs w Hnd) as Hv.
  apply (f_equal (λ o, obj_get o key)) in Hv.
  rewrite !variantsOf_get in Hv. unfold getTestVariant.
  destruct (obj_get (tests (data (after_all cs w))) key); [|done].
  destruct (obj_get (tests (data w)) key) eqn:Hk; [|done].
  destruct Hnot. unfold declaredTest. by rewrite Hk.
Qed.

(** ** The flag storage *)

Lemma flagStorage_after_all_quiet cs (w : Abby) :
  Forall (λ c, development w = false ∨ ∀ n v, c ≠ CallUpdateFlag n v) cs →
  persistantFlagStorage (after_all cs w) = persistantFlagStorage w.
Proof.
  intros Hcs.
  apply (methods_after_all
           (λ w', development w' = development w
                  ∧ persistantFlagStorage w' = persistantFlagStorage w)
           (λ _, True)
           (λ c, development w = false ∨ ∀ n v, c ≠ CallUpdateFlag n v)).
  - intros k. apply frame_getTestVariant; quiet.
  - apply frame_getProjectData; quiet.
  - apply frame_notifyListeners; quiet.
  - intros cookies _.
    apply (preserves_setLocalOverrides _ (λ _, True)); try quiet.
    intros; by apply Forall_true.
  - done.
  - done.
  - intros name value w' Hok [Hdev Hfs]. unfold afterFlagWrite.
    destruct (development w') eqn:Hd; [|split; [cbn; by rewrite Hd | exact Hfs]].
    destruct Hok as [Hprod|Hne]; [congruence|]. by destruct (Hne name value).
  - done.
  - intros l _ w' Hw'. unfold subscribe, modify. cbn. by case_bool_decide.
  - by intros l _ w' Hw'.
  - eapply Forall_impl; [exact Hcs|]. intros c Hc. split; [done|].
    by destruct c as [[?|] [?|]|[?|] [?|]|[?|] [?|]| | | | | | | | |?].
  - done.
Qed.

(** X5. The flag storage is written by [updateFlag] alone, and only in
    development mode, where it receives the value as the string [true]
    or [false]; outside development mode no call writes to it. *)
Theorem flag_storage_written_in_development_only (w : Abby) :
  (∀ cs, development w = false →
         persistantFlagStorage (after_all cs w) = persistantFlagStorage w)
  ∧ (∀ cs, Forall (λ c, ∀ n v, c ≠ CallUpdateFlag n v) cs →
           persistantFlagStorage (after_all cs w) = persistantFlagStorage w)
  ∧ (∀ name value,
       development w = true →
       persistantFlagStorage (updateFlag name value w).2
       = (λ s, storage_set s name (Boolean_toString value))
           <$> persistantFlagStorage w).
Proof.
  split; [|split].
  - intros cs Hdev. apply flagStorage_after_all_quiet.
    apply Forall_forall. intros c _. by left.
  - intros cs Hcs. apply flagStorage_after_all_quiet.
    eapply Forall_impl; [exact Hcs|]. intros c Hc. by right.
  - intros name value Hdev. rewrite updateFlag_notifies.
    unfold afterFlagWrite. rewrite Hdev.
    by apply (frame_notifyListeners
                (λ w', persistantFlagStorage w'
                       = (λ s, storage_set s name (Boolean_toString value))
                           <$> persistantFlagStorage w)).
Qed.

(** ** Overrides stay *)


(** X6. No call removes a flag override: once a flag has one, set by
    [updateFlag] or read from a cookie, every later [getFeatureFlag]
    returns the override then in force, never the value of a response, of
    the development settings or of the default. *)
Theorem flag_override_is_never_removed (w : Abby) (f : string)
    (cs : list call) :
  is_Some (flagOverrides w !! f) →
  ∃ b, flagOverrides (after_all cs w) !! f = Some b
       ∧ getFeatureFlag f (after_all cs w) = (Ok b, after_all cs w).
Proof.
  intros Hf.
  assert (is_Some (flagOverrides (after_all cs w) !! f)
          ∧ projectId (config (after_all cs w)) = projectId (config w))
    as [[b Hb] _].
  { apply (frame_after_all
             (λ w', is_Some (flagOverrides w' !! f)
                    ∧ projectId (config w') = projectId (config w))
             (projectId (config w)) (λ _, True) (λ _, True));
      try (by quiet).
    - by intros w' [_ ?].
    - intros w' k v _ [Hw' ?]. split; [|done]. cbn.
      destruct (decide (k = f)) as [->|Hne].
      + rewrite lookup_insert_eq. by eexists.
      + by rewrite lookup_insert_ne.
    - apply Forall_forall. intros c _.
      destruct c as [[?|] [?|]|[?|] [?|]|[?|] [?|]| | | | | | | | |?];
        cbn; try done; by apply Forall_true. }
  exists b. split; [done|]. unfold getFeatureFlag. by rewrite Hb.
Qed.


(** ** A variant, once assigned *)

Lemma persisted_after_all `{!LawfulStorage S} cs (w : Abby) key v :
  development w = false → persistedValue w key = Some v →
  declaredTest w key →
  Forall (λ c, ¬ overridesVariant key c) cs →
  getTestVariant key (after_all cs w) = (Ok v, after_all cs w).
Proof.
  intros Hdev Hp Hdecl Hcs.
  assert (development (after_all cs w) = false
          ∧ persistedValue (after_all cs w) key = Some v
          ∧ declaredTest (after_all cs w) key
          ∧ projectId (config (after_all cs w)) = projectId (config w))
    as (Hd & Hp' & [e He] & _).
  { apply (frame_after_all
             (λ w', development w' = false
                    ∧ persistedValue w' key = Some v
                    ∧ declaredTest w' key
                    ∧ projectId (config w') = projectId (config w))
             (projectId (config w)) (λ _, True) (λ k, k ≠ key));
      try done; try (by intros ? ? ? (? & ? & ? & ?));
      try (by intros ? ? (? & ? & ? & ?)).
    - by intros w' (_ & _ & _ & ?).
    - intros w' k e (? & ? & ? & ?). repeat split; try done.
      by apply declaredTest_set.
    - intros w' d (? & ? & Hd & ?). repeat split; try done.
      unfold declaredTest in *. cbn. rewrite mergeTests_get.
      destruct Hd as [e ->]. by eexists.
    - intros w' k v' (? & ? & ? & ?) Hk. repeat split; try done.
      by apply persistedValue_set_fresh.
    - intros w' k v' Hk (? & ? & ? & ?). repeat split; try done.
      by rewrite persistedValue_set_ne.
    - eapply Forall_impl; [exact Hcs|]. intros c Hc.
      destruct c as [[?|] [?|]|[?|] [?|]|[?|] [?|]| | | | | | | | |?];
        cbn in *; try done; by apply Forall_true. }
  unfold getTestVariant. by rewrite He, Hd, Hp'.
Qed.

(** X8. Outside development mode, with a test storage injected that
    remembers what was set, the variant [getTestVariant] has once returned
    for a test is the variant it returns ever after, through later
    responses, reads and cookies, until [updateLocalVariant] is called for
    that test. *)
Theorem assigned_variant_is_kept `{!LawfulStorage S} (w w1 : Abby)
    (key v : string) (cs : list call) :
  development w = false →
  is_Some (persistantTestStorage w) →
  getTestVariant key w = (Ok v, w1) →
  Forall (λ c, ¬ overridesVariant key c) cs →
  getTestVariant key (after_all cs w1) = (Ok v, after_all cs w1).
Proof.
  intros Hdev Hs Hg Hcs.
  pose proof (getTestVariant_settles w w1 key v Hs Hg) as Hres.
  pose proof (getTestVariant_data w key) as Hdata.
  assert (development w1 = false) as Hdev1.
  { pose proof (frame_getTestVariant (λ w', development w' = false)) as Hf.
    specialize (Hf ltac:(done) ltac:(done) key w Hdev). by rewrite Hg in Hf. }
  rewrite Hg in Hdata. cbn [snd] in Hdata.
  apply persisted_after_all; try done.
  - unfold resolved in Hres. by rewrite Hdev1 in Hres.
  - unfold declaredTest. rewrite Hdata. unfold getTestVariant in Hg.
    destruct (obj_get (tests (data w)) key); [by eexists | done].
Qed.

(** ** Loading on demand *)

Lemma with_dataInitialized_same (w : Abby) :
  dataInitialized w = true → with_dataInitialized true w = w.
Proof. destruct w. cbn. by intros ->. Qed.

Lemma getProjectData_dataInitialized (w : Abby) :
  dataInitialized (getProjectData w).2 = dataInitialized w.
Proof.
  by apply (frame_getProjectData
              (λ w', dataInitialized w' = dataInitialized w)).
Qed.

(** X9. [getProjectDataAsync] loads at most once: as soon as one call
    has got past the load, every later call is [getProjectData] and
    ignores what a fetch would bring; and a load that found no data counts,
    so it is not tried again. *)
Theorem getProjectDataAsync_loads_once (w : Abby) :
  (∀ cookie, dataInitialized (getProjectDataAsync None cookie w).2 = true)
  ∧ (∀ fetched cookie d w1,
       getProjectDataAsync fetched cookie w = (Ok d, w1) →
       dataInitialized w1 = true
       ∧ ∀ fetched' cookie',
           getProjectDataAsync fetched' cookie' w1 = getProjectData w1).
Proof.
  assert (∀ w0 : Abby, dataInitialized w0 = true →
            ∀ fetched' cookie',
              getProjectDataAsync fetched' cookie' w0 = getProjectData w0)
    as Hlater.
  { intros w0 Hinit fetched' cookie'.
    unfold getProjectDataAsync, bind, gets, modify, ret. rewrite Hinit.
    cbv beta iota. by rewrite with_dataInitialized_same. }
  split.
  - intros cookie.
    unfold getProjectDataAsync, loadProjectData, bind, gets, modify, ret.
    destruct (dataInitialized w); cbv beta iota;
      by rewrite getProjectData_dataInitialized.
  - intros fetched cookie d w1 Hrun.
    assert (dataInitialized w1 = true) as Hinit; [|by split; [|apply Hlater]].
    revert Hrun. unfold getProjectDataAsync, bind, gets, modify.
    destruct (if dataInitialized w then _ else _) as [[[]|e] w2]; [|done].
    cbv beta iota. intros Hrun.
    pose proof (getProjectData_dataInitialized (with_dataInitialized true w2))
      as Hd. by rewrite Hrun in Hd.
Qed.

(** ** What [init] returns *)

Lemma init_ends_with_read d cookie (w w' : Abby) ld :
  init (Some d) cookie w = (Ok ld, w') →
  ∃ w2, getProjectData w2 = (Ok ld, w').
Proof.
  rewrite init_Some. unfold bind at 1.
  destruct (notifyListeners _) as [[[]|e] w1]; [|done].
  unfold bind. destruct cookie as [c|].
  - destruct (setLocalOverrides c w1) as [[[]|e] w2]; [|done].
    intros Hrun. by exists w2.
  - unfold ret. intros Hrun. by exists w1.
Qed.

(** What the reads of [init] keep, from the moment the response is
    stored. *)
Lemma init_keeps (P : Abby → Prop) d cookie (w : Abby) :
  preserves P notifyListeners → preserves P getProjectData →
  (∀ c, preserves P (setLocalOverrides c)) →
  P (with_data
       (mkLocalData
          (fold_left mergeTest (response_tests d) (tests (data w)))
          (fold_left mergeFlag (response_flags d) [])) w) →
  P (init (Some d) cookie w).2.
Proof.
  intros Hn Hg Hc Hw. rewrite init_Some.
  apply (preserves_bind P); [done | | done].
  intros _. apply preserves_bind; [|by intros _].
  destruct cookie as [c|]; [apply Hc | apply preserves_ret].
Qed.

Lemma lastEntry_is_Some {V} (l : list (string * V)) k :
  is_Some (lastEntry l k) ↔ k ∈ l.*1.
Proof.
  unfold lastEntry. rewrite obj_get_is_Some. unfold obj_keys.
  change (map fst (reverse l)) with ((reverse l).*1).
  by rewrite fmap_reverse, elem_of_reverse.
Qed.





Lemma definitionsOf_get o k :
  obj_get (definitionsOf o) k = testDefinition <$> obj_get o k.
Proof.
  induction o as [|[k' e] o IH]; cbn; [done|].
  by destruct (decide (k' = k)).
Qed.

(** X12. The tests [init] returns are the declared tests, each with its
    own variants, with the weights of the response when the response lists
    the test (the last listed for the name) and the weights it had
    otherwise, and with a selected variant. *)
Theorem init_returns_the_weights_of_the_response (w w' : Abby)
    (d : AbbyDataResponse) (cookie : option string) (ld : LocalData)
    (name : string) (e : TestEntry) :
  NoDup (obj_keys (tests (data w))) →
  init (Some d) cookie w = (Ok ld, w') →
  obj_get (tests (data w)) name = Some e →
  ∃ e', obj_get (tests ld) name = Some e'
        ∧ variants e' = variants e
        ∧ weights e' = match lastEntry (response_tests d) name with
                       | Some ws => Some ws
                       | None => weights e
                       end
        ∧ is_Some (selectedVariant e').
Proof.
  intros Hnd Hrun He.
  destruct (init_ends_with_read _ _ _ _ _ Hrun) as [w2 Hread].
  destruct (getProjectData_stores _ _ _ Hread) as (Hld & _ & Hsel).
  set (T := fold_left mergeTest (response_tests d) (tests (data w))).
  assert (NoDup (definitionsOf T).*1) as HndT
    by (by rewrite definitionsOf_keys; unfold T; rewrite mergeTests_keys).
  assert (testDefinitions (init (Some d) cookie w).2 = definitionsOf T)
    as Hdefs.
  { apply init_keeps.
    - by apply notifyListeners_testDefinitions.
    - by apply getProjectData_testDefinitions.
    - intros c w0 Hw0. unfold testDefinitions. by rewrite setLocalOverrides_data.
    - done. }
  rewrite Hrun in Hdefs. cbn [snd] in Hdefs.
  apply (f_equal (λ o, obj_get o name)) in Hdefs.
  unfold testDefinitions in Hdefs. rewrite !definitionsOf_get in Hdefs.
  unfold T in Hdefs. rewrite mergeTests_get, He in Hdefs. rewrite <- Hld in Hdefs.
  destruct (obj_get (tests ld) name) as [e'|] eqn:He'; [|done].
  exists e'. injection Hdefs as Hv Hw. repeat split; try done.
  by apply (Hsel name).
Qed.

(** ** Cookies *)

(** The callback of the loop of [setLocalOverrides]. *)
Definition ingestCookie (c : string * string) : M unit :=
  bind (gets (λ w, projectId (config w))) (λ pid,
    bind
      (if startsWith c.1 ABBY_AB_STORAGE_PREFIX then
         modify (λ w,
           with_testOverrides
             (<[String_replace c.1 (ABBY_AB_STORAGE_PREFIX ++ pid ++ "_") ""
                := c.2]> (testOverrides w)) w)
       else ret ())
      (λ _,
         if startsWith c.1 ABBY_FF_STORAGE_PREFIX then
           modify (λ w,
             with_flagOverrides
               (<[String_replace c.1 (ABBY_FF_STORAGE_PREFIX ++ pid ++ "_") ""
                  := bool_decide (c.2 = "true")]> (flagOverrides w)) w)
         else ret ())).

Lemma setLocalOverrides_loop cookies :
  setLocalOverrides cookies = forEach ingestCookie (parseCookies cookies).
Proof. reflexivity. Qed.

(** The test overrides and the flag overrides a cookie string carries for
    an instance of project [pid], in the order of the cookies. *)
Definition cookieTestOverrides (pid cookies : string) : list (string * string) :=
  map (λ c : string * string,
         (String_replace c.1 (ABBY_AB_STORAGE_PREFIX ++ pid ++ "_") "", c.2))
    (filter (λ c : string * string,
               startsWith c.1 ABBY_AB_STORAGE_PREFIX = true)
       (parseCookies cookies)).

Definition cookieFlagOverrides (pid cookies : string) : list (string * bool) :=
  map (λ c : string * string,
         (String_replace c.1 (ABBY_FF_STORAGE_PREFIX ++ pid ++ "_") "",
          bool_decide (c.2 = "true")))
    (filter (λ c : string * string,
               startsWith c.1 ABBY_FF_STORAGE_PREFIX = true)
       (parseCookies cookies)).

Lemma lastEntry_cons {V} (x : string * V) l name :
  lastEntry (x :: l) name
  = match lastEntry l name with
    | Some v => Some v
    | None => if decide (x.1 = name) then Some x.2 else None
    end.
Proof.
  unfold lastEntry. rewrite reverse_cons, obj_get_app. by destruct x.
Qed.

(** The two override maps after the cookies [l] have been ingested. *)
Lemma ingestCookies_run (l : list (string * string)) (w : Abby) :
  ∃ w',
    forEach ingestCookie l w = (Ok (), w')
    ∧ config w' = config w ∧ data w' = data w
    ∧ persistantTestStorage w' = persistantTestStorage w
    ∧ persistantFlagStorage w' = persistantFlagStorage w
    ∧ development w' = development w ∧ random w' = random w
    ∧ (∀ name,
         testOverrides w' !! name
         = match lastEntry
                   (map (λ c : string * string,
                           (String_replace c.1
                              (ABBY_AB_STORAGE_PREFIX
                                 ++ projectId (config w) ++ "_") "", c.2))
                      (filter (λ c : string * string,
                                 startsWith c.1 ABBY_AB_STORAGE_PREFIX = true)
                         l)) name with
           | Some v => Some v
           | None => testOverrides w !! name
           end)
    ∧ (∀ name,
         flagOverrides w' !! name
         = match lastEntry
                   (map (λ c : string * string,
                           (String_replace c.1
                              (ABBY_FF_STORAGE_PREFIX
                                 ++ projectId (config w) ++ "_") "",
                            bool_decide (c.2 = "true")))
                      (filter (λ c : string * string,
                                 startsWith c.1 ABBY_FF_STORAGE_PREFIX = true)
                         l)) name with
           | Some v => Some v
           | None => flagOverrides w !! name
           end).
Proof.
  revert w. induction l as [|c l IH]; intros w.
  - exists w. by repeat split.
  - rewrite forEach_cons.
    assert (∃ w1,
              ingestCookie c w = (Ok (), w1)
              ∧ config w1 = config w ∧ data w1 = data w
              ∧ persistantTestStorage w1 = persistantTestStorage w
              ∧ persistantFlagStorage w1 = persistantFlagStorage w
              ∧ development w1 = development w ∧ random w1 = random w
              ∧ testOverrides w1
                = (if startsWith c.1 ABBY_AB_STORAGE_PREFIX then
                     <[String_replace c.1
                         (ABBY_AB_STORAGE_PREFIX
                            ++ projectId (config w) ++ "_") "" := c.2]>
                       (testOverrides w)
                   else testOverrides w)
              ∧ flagOverrides w1
                = (if startsWith c.1 ABBY_FF_STORAGE_PREFIX then
                     <[String_replace c.1
                         (ABBY_FF_STORAGE_PREFIX
                            ++ projectId (config w) ++ "_") ""
                       := bool_decide (c.2 = "true")]> (flagOverrides w)
                   else flagOverrides w))
      as (w1 & -> & Hc1 & Hd1 & Hts1 & Hfs1 & Hdev1 & Hr1 & Ht1 & Hf1).
    { unfold ingestCookie, bind, gets, modify, ret.
      destruct (startsWith c.1 ABBY_AB_STORAGE_PREFIX);
        destruct (startsWith c.1 ABBY_FF_STORAGE_PREFIX);
        eexists; by repeat split. }
    destruct (IH w1) as (w' & -> & Hc & Hd & Hts & Hfs & Hdev & Hr & Ht & Hf).
    exists w'. split; [done|].
    repeat split; try congruence.
    + intros name. rewrite Ht, Hc1, Ht1. rewrite filter_cons.
      destruct (startsWith c.1 ABBY_AB_STORAGE_PREFIX) eqn:Hab.
      * rewrite decide_True by done. cbn [map]. rewrite lastEntry_cons.
        destruct (lastEntry _ name); [done|]. cbn [fst snd].
        destruct (decide (_ = name)) as [->|Hne].
        -- by rewrite lookup_insert_eq.
        -- by rewrite lookup_insert_ne.
      * by rewrite decide_False by done.
    + intros name. rewrite Hf, Hc1, Hf1. rewrite filter_cons.
      destruct (startsWith c.1 ABBY_FF_STORAGE_PREFIX) eqn:Hff.
      * rewrite decide_True by done. cbn [map]. rewrite lastEntry_cons.
        destruct (lastEntry _ name); [done|]. cbn [fst snd].
        destruct (decide (_ = name)) as [->|Hne].
        -- by rewrite lookup_insert_eq.
        -- by rewrite lookup_insert_ne.
      * by rewrite decide_False by done.
Qed.

(** X14. [setLocalOverrides] never throws and writes the two override
    maps only: for every name the override afterwards is the value of the
    last cookie that carries one for the name, and the override there was
    when no cookie does; the stored data and both storages are as before
    (nothing is persisted, unlike with [updateLocalVariant]). *)
Theorem cookies_write_the_override_maps (w : Abby) (cookies : string) :
  ∃ w',
    setLocalOverrides cookies w = (Ok (), w')
    ∧ data w' = data w
    ∧ persistantTestStorage w' = persistantTestStorage w
    ∧ persistantFlagStorage w' = persistantFlagStorage w
    ∧ (∀ name,
         testOverrides w' !! name
         = match lastEntry
                   (cookieTestOverrides (projectId (config w)) cookies)
                   name with
           | Some v => Some v
           | None => testOverrides w !! name
           end)
    ∧ (∀ name,
         flagOverrides w' !! name
         = match lastEntry
                   (cookieFlagOverrides (projectId (config w)) cookies)
                   name with
           | Some v => Some v
           | None => flagOverrides w !! name
           end).
Proof.
  destruct (ingestCookies_run (parseCookies cookies) w)
    as (w' & Hrun & _ & Hd & Hts & Hfs & _ & _ & Ht & Hf).
  exists w'. rewrite setLocalOverrides_loop. by repeat split.
Qed.

Lemma string_app_cons (x : ascii) (a b : string) :
  String x a ++ b = String x (a ++ b).
Proof. reflexivity. Qed.

Lemma string_app_nil (b : string) : "" ++ b = b.
Proof. reflexivity. Qed.

Lemma string_app_assoc (a b c : string) : (a ++ b) ++ c = a ++ (b ++ c).
Proof.
  induction a as [|x a IH]; [done|]. by rewrite !string_app_cons, IH.
Qed.

Lemma cookie_name_split (prefix pid name : string) :
  prefix ++ pid ++ "_" ++ name = (prefix ++ pid ++ "_") ++ name.
Proof. by rewrite !string_app_assoc. Qed.

Lemma String_prefix_app (p s : string) : String.prefix p (p ++ s) = true.
Proof.
  induction p as [|a p IH].
  - rewrite string_app_nil. by destruct s.
  - rewrite string_app_cons. cbn. by destruct (Ascii.ascii_dec a a).
Qed.

Lemma string_drop_app (p s : string) :
  string_drop (String.length p) (p ++ s) = s.
Proof.
  induction p as [|a p IH]; [by destruct s|]. by rewrite string_app_cons.
Qed.

Lemma String_replace_unfold (s pat r : string) :
  String_replace s pat r
  = if String.prefix pat s then r ++ string_drop (String.length pat) s
    else match s with
         | EmptyString => EmptyString
         | String c s' => String c (String_replace s' pat r)
         end.
Proof. by destruct s. Qed.

(** A cookie name made of a prefix and a name gives the name back. *)
Lemma String_replace_prefix (p s : string) : String_replace (p ++ s) p "" = s.
Proof.
  by rewrite String_replace_unfold, String_prefix_app, string_drop_app.
Qed.

Lemma obj_get_Some_elem {V} (o : list (string * V)) k v :
  obj_get o k = Some v → (k, v) ∈ o.
Proof.
  induction o as [|[k' v'] o IH]; cbn; [done|].
  destruct (decide (k' = k)) as [->|Hne].
  - intros [= ->]. by left.
  - intros Hget. right. by apply IH.
Qed.

Lemma lastEntry_agreed {V} (l : list (string * V)) name v :
  (name, v) ∈ l → (∀ v', (name, v') ∈ l → v' = v) →
  lastEntry l name = Some v.
Proof.
  intros Hin Hagree.
  assert (is_Some (lastEntry l name)) as [v' Hv'].
  { apply lastEntry_is_Some. apply list_elem_of_fmap. by exists (name, v). }
  rewrite Hv'. f_equal. apply Hagree.
  unfold lastEntry in Hv'. apply obj_get_Some_elem in Hv'.
  by rewrite elem_of_reverse in Hv'.
Qed.

(** X15. A cookie named by the test prefix, the project id, an underscore
    and the name of a test sets the override of that test to its value,
    provided the cookies that carry an override for the test agree on it;
    in development mode [getTestVariant] then returns the value for a
    declared test, as it stands. *)
Theorem test_cookie_overrides_in_development (w : Abby)
    (cookies name v : string) :
  (ABBY_AB_STORAGE_PREFIX ++ projectId (config w) ++ "_" ++ name, v)
  ∈ parseCookies cookies →
  (∀ v', (name, v') ∈ cookieTestOverrides (projectId (config w)) cookies →
         v' = v) →
  testOverrides (setLocalOverrides cookies w).2 !! name = Some v
  ∧ (development w = true → declaredTest w name →
     getTestVariant name (setLocalOverrides cookies w).2
     = (Ok v, (setLocalOverrides cookies w).2)).
Proof.
  intros Hin Hagree.
  destruct (ingestCookies_run (parseCookies cookies) w)
    as (w' & Hrun & _ & Hd & _ & _ & Hdev & _ & Ht & _).
  rewrite setLocalOverrides_loop, Hrun. cbn [snd].
  assert (testOverrides w' !! name = Some v) as Hov.
  { rewrite Ht.
    change (lastEntry _ name)
      with (lastEntry (cookieTestOverrides (projectId (config w)) cookies)
              name).
    rewrite (lastEntry_agreed _ name v); [done| |done].
    unfold cookieTestOverrides. apply list_elem_of_fmap.
    eexists. split; [|apply list_elem_of_filter; split; [|exact Hin]].
    - cbn [fst snd]. f_equal.
      by rewrite cookie_name_split, String_replace_prefix.
    - cbn [fst]. unfold startsWith. apply String_prefix_app. }
  split; [done|]. intros Hdevw [e He].
  unfold getTestVariant. by rewrite Hd, He, Hdev, Hdevw, Hov.
Qed.

(** X16. A cookie named by the flag prefix, the project id, an underscore
    and the name of a flag decides the flag in every environment mode:
    when the cookies that carry an override for the flag agree on it,
    [getFeatureFlag] afterwards returns [true] if the cookie's value is
    the string [true], and [false] for any other value. *)
Theorem flag_cookie_overrides_in_every_mode (w : Abby)
    (cookies name v : string) :
  (ABBY_FF_STORAGE_PREFIX ++ projectId (config w) ++ "_" ++ name, v)
  ∈ parseCookies cookies →
  (∀ b, (name, b) ∈ cookieFlagOverrides (projectId (config w)) cookies →
        b = bool_decide (v = "true")) →
  getFeatureFlag name (setLocalOverrides cookies w).2
  = (Ok (bool_decide (v = "true")), (setLocalOverrides cookies w).2).
Proof.
  intros Hin Hagree.
  destruct (ingestCookies_run (parseCookies cookies) w)
    as (w' & Hrun & _ & _ & _ & _ & _ & _ & _ & Hf).
  rewrite setLocalOverrides_loop, Hrun. cbn [snd].
  unfold getFeatureFlag. rewrite Hf.
  change (lastEntry _ name)
    with (lastEntry (cookieFlagOverrides (projectId (config w)) cookies)
            name).
  rewrite (lastEntry_agreed _ name (bool_decide (v = "true"))); [done| |done].
  unfold cookieFlagOverrides. apply list_elem_of_fmap.
  eexists. split; [|apply list_elem_of_filter; split; [|exact Hin]].
  - cbn [fst snd]. f_equal.
    by rewrite cookie_name_split, String_replace_prefix.
  - cbn [fst]. unfold startsWith. apply String_prefix_app.
Qed.

(** X17. Outside development mode the cookies change no test's variant:
    [getTestVariant] returns after [setLocalOverrides] what it would have
    returned before, whatever the cookies say. *)
Theorem test_cookies_are_ignored_outside_development (w : Abby)
    (cookies key : string) :
  development w = false →
  (getTestVariant key (setLocalOverrides cookies w).2).1
  = (getTestVariant key w).1.
Proof.
  intros Hdevw.
  destruct (ingestCookies_run (parseCookies cookies) w)
    as (w' & Hrun & _ & Hd & Hts & _ & Hdev & Hr & _ & _).
  rewrite setLocalOverrides_loop, Hrun. cbn [snd].
  unfold getTestVariant, persistedValue.
  rewrite Hd, Hdev, Hdevw, Hts, Hr.
  destruct (obj_get (tests (data w)) key) as [t|]; [|done].
  destruct (match persistantTestStorage w with
            | Some s => storage_get s key
            | None => None
            end); [done|].
  by destruct (getWeightedRandomVariant _ _ _) as [[v|e] r].
Qed.

(** ** Reading twice *)

(** X18. With a test storage injected that remembers what was set, a read
    that returns has settled the data: the selected variant it reports for
    a test is the variant [getTestVariant] returns afterwards, without a
    draw, and a second read returns the same data and changes nothing. *)
Theorem read_reports_the_variant_in_force `{!LawfulStorage S} (w w1 : Abby)
    (d : LocalData) :
  is_Some (persistantTestStorage w) →
  NoDup (obj_keys (tests (data w))) →
  getProjectData w = (Ok d, w1) →
  getProjectData w1 = (Ok d, w1)
  ∧ (∀ k e, obj_get (tests d) k = Some e →
            ∃ v, selectedVariant e = Some v
                 ∧ getTestVariant k w1 = (Ok v, w1)).
Proof.
  intros Hs Hnd Hrun.
  destruct (getProjectData_settled w w1 d Hs Hnd Hrun) as [Hset ->].
  split; [by apply settled_getProjectData|].
  intros k e He. destruct Hset as (_ & Ht & _).
  destruct (Ht k e He) as (v & Hsel & Hres). exists v. split; [done|].
  by apply (getTestVariant_resolved w1 k e v).
Qed.

End EngineFacts.

(** * With the selector of the specification *)

Lemma selectByDraw_elem variants ws draw acc v :
  selectByDraw variants ws draw acc = Some v → v ∈ variants.
Proof.
  revert ws acc. induction variants as [|x variants IH]; intros [|y ws] acc;
    cbn; try done.
  destruct (Qle_bool _ _).
  - intros Hv. right. by eapply IH.
  - intros [= ->]. by left.
Qed.

Lemma getWeightedRandomVariant_spec_elem variants weights rng v rng' :
  getWeightedRandomVariant_spec variants weights rng = (Ok v, rng') →
  v ∈ variants.
Proof.
  unfold getWeightedRandomVariant_spec.
  destruct (negb _); [done|]. destruct (Qeq_bool _ _); [done|].
  destruct (selectByDraw _ _ _ _) eqn:Hsel; [|done].
  intros [= <- _]. by eapply selectByDraw_elem.
Qed.

(** A draw below the total weight selects a variant. *)
Lemma selectByDraw_total variants ws draw acc :
  length ws = length variants →
  (acc <= draw)%Q → (draw < acc + totalWeight ws)%Q →
  is_Some (selectByDraw variants ws draw acc).
Proof.
  revert ws acc. induction variants as [|x variants IH]; intros [|y ws] acc;
    cbn; try done.
  - intros _ Hle Hlt. exfalso. rewrite Qplus_0_r in Hlt.
    by apply (Qlt_not_le _ _ Hlt).
  - intros [= Hlen] Hle Hlt.
    destruct (Qle_bool (acc + y) draw) eqn:Hb; [|by eexists].
    apply IH; [done | by apply Qle_bool_iff |].
    by rewrite <- Qplus_assoc.
Qed.

(** With as many weights as variants and a positive total, a draw from the
    unit interval always selects one of the variants. *)
Lemma getWeightedRandomVariant_spec_returns variants ws u rng :
  length ws = length variants → (0 < totalWeight ws)%Q →
  (0 <= u)%Q → (u < 1)%Q →
  ∃ v, getWeightedRandomVariant_spec variants (Some ws) (u :: rng)
       = (Ok v, rng)
       ∧ v ∈ variants.
Proof.
  intros Hlen Htot Hu0 Hu1. unfold getWeightedRandomVariant_spec.
  cbn [from_option id hd tl]. rewrite Hlen, Nat.eqb_refl. cbn [negb].
  destruct (Qeq_bool (totalWeight ws) 0) eqn:Hz.
  { apply Qeq_bool_iff in Hz. rewrite Hz in Htot. by apply Qlt_irrefl in Htot. }
  destruct (selectByDraw_total variants ws (u * totalWeight ws) 0)
    as [v Hv]; [done | | |].
  - by apply Qmult_le_0_compat; [|apply Qlt_le_weak].
  - rewrite Qplus_0_l. rewrite <- (Qmult_1_l (totalWeight ws)) at 2.
    by apply Qmult_lt_compat_r.
  - exists v. rewrite Hv. split; [done | by eapply selectByDraw_elem].
Qed.

Section SpecifiedSelector.

Context {S : Type} `{PersistentStorage S}.

(** C4, as the code has it. The engine validates neither overrides nor
    cookie values nor persisted values against the declared variants: in
    development mode the override is returned as it is, else the persisted
    value as it is.  For a declared test the returned variant is an
    element of the test's variants whenever the override that development
    mode honours and the persisted value, if there are any, are; what the
    weighted selection returns always is. *)
Theorem C4_variant_membership (w w' : @Abby S (list Q)) (key : string)
    (t : TestEntry) (v : string) :
  obj_get (tests (data w)) key = Some t →
  (∀ o, development w = true → testOverrides w !! key = Some o →
        o ∈ variants t) →
  (∀ p, persistedValue w key = Some p → p ∈ variants t) →
  getTestVariant getWeightedRandomVariant_spec key w = (Ok v, w') →
  v ∈ variants t.
Proof.
  intros Ht Ho Hp. unfold getTestVariant. rewrite Ht.
  destruct (development w) eqn:Hdev.
  - destruct (testOverrides w !! key) as [o|] eqn:Hov.
    { intros [= <- _]. by apply Ho. }
    destruct (persistedValue w key) as [p|].
    { intros [= <- _]. by apply Hp. }
    destruct (getWeightedRandomVariant_spec _ _ _) as [[v'|e] r] eqn:Hsel;
      [|done].
    intros [= <- _]. by eapply getWeightedRandomVariant_spec_elem.
  - destruct (persistedValue w key) as [p|].
    { intros [= <- _]. by apply Hp. }
    destruct (getWeightedRandomVariant_spec _ _ _) as [[v'|e] r] eqn:Hsel;
      [|done].
    intros [= <- _]. by eapply getWeightedRandomVariant_spec_elem.
Qed.

End SpecifiedSelector.

(** * The properties on the instance *)

Lemma C2_variant_precedence_witness :
  obj_get (tests (data (example false (Some [("test", "B")]) []))) "test"
  = Some (mkTestEntry ["A"; "B"] None None)
  ∧ getTestVariant getWeightedRandomVariant_spec "test"
      (example false (Some [("test", "B")]) [])
    = (Ok "B", example false (Some [("test", "B")]) []).
Proof.
  split; [reflexivity|].
  pose proof (C2_variant_precedence getWeightedRandomVariant_spec
                (example false (Some [("test", "B")]) []) "test"
                (mkTestEntry ["A"; "B"] None None) eq_refl)
    as (_ & _ & _ & Hpersisted & _).
  apply Hpersisted; [left|]; reflexivity.
Defined.

Lemma C3_undeclared_names_witness :
  ¬ inheritedName "tset"
  ∧ ¬ declaredTest (example false None []) "tset"
  ∧ getTestVariant getWeightedRandomVariant_spec "tset" (example false None [])
    = (Throw TypeError, example false None []).
Proof.
  assert (¬ inheritedName "tset") as Hplain
    by (apply not_inheritedName; vm_compute; reflexivity).
  assert (¬ declaredTest (example false None []) "tset") as Hnot
    by (intros [e He]; vm_compute in He; discriminate).
  split; [exact Hplain|]. split; [exact Hnot|].
  exact (proj1 (C3_undeclared_names getWeightedRandomVariant_spec
                  (example false None []) "tset" Hplain) Hnot).
Defined.

(** The claim fails: a flag that was never declared resolves to the
    default, and nothing is thrown. *)
Lemma C3_counterexample :
  ¬ declaredFlag (example false None []) "flag9"
  ∧ getFeatureFlag "flag9" (example false None [])
    = (Ok false, example false None []).
Proof.
  split; [|reflexivity].
  unfold declaredFlag. cbn. intros Hin.
  repeat (apply elem_of_cons in Hin as [Hin|Hin]; [discriminate|]).
  by apply elem_of_nil in Hin.
Qed.

Lemma C4_variant_membership_witness :
  obj_get (tests (data (example false None [(1 # 2)%Q]))) "test"
  = Some (mkTestEntry ["A"; "B"] None None)
  ∧ getTestVariant getWeightedRandomVariant_spec "test"
      (example false None [(1 # 2)%Q])
    = (Ok "B", example false None [])
  ∧ "B" ∈ ["A"; "B"].
Proof.
  split; [reflexivity|]. split; [reflexivity|].
  apply (C4_variant_membership
           (example false None [(1 # 2)%Q]) (example false None [])
           "test" (mkTestEntry ["A"; "B"] None None) "B").
  - reflexivity.
  - intros o Hdev. discriminate Hdev.
  - intros p Hp. discriminate Hp.
  - reflexivity.
Defined.

(** The claim fails: a value the test storage returns is handed on as it
    is, whether the test has such a variant or not. *)
Lemma C4_counterexample :
  obj_get (tests (data (example false (Some [("test", "Z")]) []))) "test"
  = Some (mkTestEntry ["A"; "B"] None None)
  ∧ (getTestVariant getWeightedRandomVariant_spec "test"
       (example false (Some [("test", "Z")]) [])).1 = Ok "Z"
  ∧ "Z" ∉ ["A"; "B"].
Proof.
  split; [reflexivity|]. split; [reflexivity|]. intros Hin.
  repeat (apply elem_of_cons in Hin as [Hin|Hin]; [discriminate|]).
  by apply elem_of_nil in Hin.
Qed.

(** In development mode the same holds of a value read from a cookie. *)
Example cookie_variant_is_not_validated :
  (getTestVariant getWeightedRandomVariant_spec "test"
     (exampleCalls [CallSetLocalOverrides "abby-ab-proj1_test=Bogus"]
        (example true None []))).1 = Ok "Bogus".
Proof. reflexivity. Qed.

(** The instance after the mock response has been ingested. *)
Lemma C5_init_without_data_witness :
  NoDup (obj_keys (tests (data
    (exampleCalls [CallInit (Some exampleResponse) None]
       (example false (Some []) [(1 # 2)%Q])))))
  ∧ testDefinitions
      (exampleCalls [CallInit (Some exampleResponse) None;
                     CallInit (Some emptyResponse) None]
         (example false (Some []) [(1 # 2)%Q]))
    = [("test", (["A"; "B"], Some [1%Q; 1%Q]))].
Proof.
  assert (NoDup (obj_keys (tests (data
    (exampleCalls [CallInit (Some exampleResponse) None]
       (example false (Some []) [(1 # 2)%Q])))))) as Hnd
    by (vm_compute; apply NoDup_singleton).
  split; [exact Hnd|].
  destruct (C5_init_without_data getWeightedRandomVariant_spec
              parseCookies_spec ABBY_AB_STORAGE_PREFIX_spec
              ABBY_FF_STORAGE_PREFIX_spec _ None Hnd) as (_ & _ & Hdefs & _).
  exact Hdefs.
Defined.

(** The claim fails: a response without flags clears the stored flag
    values, and [flag1], enabled by the response before, resolves to the
    default again. *)
Lemma C5_counterexample :
  flags (data (exampleCalls [CallInit (Some exampleResponse) None]
                 (example false None [])))
  = [("flag1", Some true); ("flag2", Some false)]
  ∧ (getFeatureFlag "flag1"
       (exampleCalls [CallInit (Some exampleResponse) None]
          (example false None []))).1 = Ok true
  ∧ flags (data (exampleCalls [CallInit (Some exampleResponse) None;
                               CallInit (Some emptyResponse) None]
                   (example false None [])))
    = []
  ∧ (getFeatureFlag "flag1"
       (exampleCalls [CallInit (Some exampleResponse) None;
                      CallInit (Some emptyResponse) None]
          (example false None []))).1 = Ok false.
Proof. repeat split; vm_compute; reflexivity. Qed.

Lemma C6_merge_response_witness :
  Forall (λ t : string * list number,
            plainRead (tests (data (example false None []))) t.1)
    (response_tests exampleResponse)
  ∧ ("__proto__" ∉ (response_flags exampleResponse).*1)
  ∧ ∃ T F,
    responseToLocalData (Some exampleResponse) (example false None [])
    = (Ok (mkLocalData T F), with_tests T (example false None []))
    ∧ obj_get T "test2" = None
    ∧ obj_get T "test" = Some (mkTestEntry ["A"; "B"] (Some [1%Q; 1%Q]) None)
    ∧ obj_get F "flag2" = Some (Some false).
Proof.
  assert (Forall (λ t : string * list number,
                    plainRead (tests (data (example false None []))) t.1)
            (response_tests exampleResponse)) as Htests
    by (repeat (apply List.Forall_cons); try apply List.Forall_nil;
        right; apply not_inheritedName; vm_compute; reflexivity).
  assert ("__proto__" ∉ (response_flags exampleResponse).*1) as Hflags
    by (apply (bool_decide_unpack _); vm_compute; exact I).
  split; [exact Htests|]. split; [exact Hflags|].
  destruct (C6_merge_response (example false None []) exampleResponse
              Htests Hflags)
    as (T & F & Hrun & _ & Hdrop & Hmerge & _ & Hflag & _).
  exists T, F. split; [exact Hrun|]. split; [|split].
  - apply Hdrop. reflexivity.
  - apply (Hmerge "test" (mkTestEntry ["A"; "B"] None None)); reflexivity.
  - apply Hflag. reflexivity.
Defined.

(** The claim fails: a flag of the response that was never declared is
    stored, resolved and reported like a declared one, and a declared flag
    the response does not list is no longer stored. *)
Lemma C6_counterexample :
  ¬ declaredFlag (example false None []) "ghost"
  ∧ data (exampleCalls
            [CallInit (Some (mkAbbyDataResponse [] [("ghost", true)])) None]
            (example false None []))
    = mkLocalData [("test", mkTestEntry ["A"; "B"] None (Some "A"))]
        [("ghost", Some true)]
  ∧ (getFeatureFlag "ghost"
       (exampleCalls
          [CallInit (Some (mkAbbyDataResponse [] [("ghost", true)])) None]
          (example false None []))).1 = Ok true.
Proof.
  split; [|split; reflexivity].
  unfold declaredFlag. cbn. intros Hin.
  repeat (apply elem_of_cons in Hin as [Hin|Hin]; [discriminate|]).
  by apply elem_of_nil in Hin.
Qed.

Lemma C7_flag_override_persists_witness :
  Forall (λ c, ¬ overridesFlag parseCookies_spec ABBY_FF_STORAGE_PREFIX_spec
                   "proj1" "flag2" c)
    [CallInit (Some exampleResponse) (Some "abby-ff-proj1_flag1=false");
     CallGetProjectData;
     CallUpdateFlag "flag1" true;
     CallInit (Some exampleResponse) None]
  ∧ (getFeatureFlag "flag2"
       (exampleCalls
          [CallInit (Some exampleResponse) (Some "abby-ff-proj1_flag1=false");
           CallGetProjectData;
           CallUpdateFlag "flag1" true;
           CallInit (Some exampleResponse) None]
          (updateFlag getWeightedRandomVariant_spec "flag2" true
             (example false None [])).2)).1
    = Ok true.
Proof.
  assert (Forall (λ c, ¬ overridesFlag parseCookies_spec
                           ABBY_FF_STORAGE_PREFIX_spec "proj1" "flag2" c)
            [CallInit (Some exampleResponse) (Some "abby-ff-proj1_flag1=false");
             CallGetProjectData;
             CallUpdateFlag "flag1" true;
             CallInit (Some exampleResponse) None]) as Hcs.
  { repeat (apply List.Forall_cons); try apply List.Forall_nil;
      vm_compute; try (intros Hin; exact Hin); try discriminate.
    intros Hin. apply elem_of_cons in Hin as [Hin|Hin]; [discriminate|].
    by apply elem_of_nil in Hin. }
  split; [exact Hcs|].
  exact (f_equal fst
           (C7_flag_override_persists getWeightedRandomVariant_spec
              parseCookies_spec ABBY_AB_STORAGE_PREFIX_spec
              ABBY_FF_STORAGE_PREFIX_spec (example false None [])
              "flag2" true _ Hcs)).
Defined.

Lemma C8_notification_witness :
  notifyListeners getWeightedRandomVariant_spec
    (exampleCalls [CallSubscribe 1; CallSubscribe 2]
       (example false (Some []) [(1 # 2)%Q]))
  = (Ok (),
     (notifyListeners getWeightedRandomVariant_spec
        (exampleCalls [CallSubscribe 1; CallSubscribe 2]
           (example false (Some []) [(1 # 2)%Q]))).2)
  ∧ ∃ ds,
      delivered
        (notifyListeners getWeightedRandomVariant_spec
           (exampleCalls [CallSubscribe 1; CallSubscribe 2]
              (example false (Some []) [(1 # 2)%Q]))).2
      = ([] ++ ds)%list
      ∧ ds = map (λ l, (l, mkLocalData
                             [("test", mkTestEntry ["A"; "B"] None (Some "B"))]
                             [("flag1", Some false); ("flag2", Some false)]))
               [1; 2].
Proof.
  assert (notifyListeners getWeightedRandomVariant_spec
            (exampleCalls [CallSubscribe 1; CallSubscribe 2]
               (example false (Some []) [(1 # 2)%Q]))
          = (Ok (),
             (notifyListeners getWeightedRandomVariant_spec
                (exampleCalls [CallSubscribe 1; CallSubscribe 2]
                   (example false (Some []) [(1 # 2)%Q]))).2)) as Hrun
    by (vm_compute; reflexivity).
  split; [exact Hrun|].
  destruct (C8_notification getWeightedRandomVariant_spec parseCookies_spec
              ABBY_AB_STORAGE_PREFIX_spec ABBY_FF_STORAGE_PREFIX_spec
              _ _ Hrun) as [(ds & _ & Hdel & _ & Hsame) _].
  exists ds. split; [exact Hdel|].
  apply (Hsame object_storage_lawful)
    with (w1 := (getProjectData getWeightedRandomVariant_spec
                   (exampleCalls [CallSubscribe 1; CallSubscribe 2]
                      (example false (Some []) [(1 # 2)%Q]))).2).
  - by eexists.
  - vm_compute. apply NoDup_singleton.
  - vm_compute. reflexivity.
Defined.

(** The claim fails: in a browser [init] reads [document.cookie] once it
    has stored the response, and a cookie that names the flag replaces the
    override that [updateFlag] had set.  The response enables [flag1], the
    override was [true], and yet the flag resolves to [false], the value
    of the cookie. *)
Lemma C7_counterexample :
  (getFeatureFlag "flag1"
     (exampleCalls [CallUpdateFlag "flag1" true] (example false None []))).1
  = Ok true
  ∧ lastEntry (response_flags exampleResponse) "flag1" = Some true
  ∧ (getFeatureFlag "flag1"
       (exampleCalls
          [CallUpdateFlag "flag1" true;
           CallInit (Some exampleResponse)
             (Some (ABBY_FF_STORAGE_PREFIX_spec ++ "proj1_flag1=false"))]
          (example false None []))).1
    = Ok false.
Proof. repeat split; vm_compute; reflexivity. Qed.

(** The claim fails: with no test storage, the update of a flag makes the
    engine resolve the project data once for each of the two listeners,
    with a draw each time, and the two are handed different data. *)
Lemma C8_counterexample :
  ∃ d1 d2,
    delivered
      (exampleCalls [CallSubscribe 1; CallSubscribe 2;
                     CallUpdateFlag "flag1" true]
         (example false None [0%Q; (1 # 2)%Q]))
    = [(1, d1); (2, d2)]
    ∧ selectedVariant <$> obj_get (tests d1) "test" = Some (Some "A")
    ∧ selectedVariant <$> obj_get (tests d2) "test" = Some (Some "B")
    ∧ d1 ≠ d2.
Proof.
  eexists _, _. split; [vm_compute; reflexivity|]. repeat split; discriminate.
Qed.

(** Nor does the ingestion of cookies notify: the listener has received
    nothing after it. *)
Example cookie_ingestion_notifies_nobody :
  delivered
    (exampleCalls [CallSubscribe 1;
                   CallSetLocalOverrides "abby-ff-proj1_flag1=true"]
       (example false None []))
  = [].
Proof. reflexivity. Qed.

Lemma C9_getProjectData_keeps_witness :
  NoDup (obj_keys (tests (data (example false None []))))
  ∧ testDefinitions
      (getProjectData getWeightedRandomVariant_spec (example false None [])).2
    = [("test", (["A"; "B"], None))]
  ∧ (getFeatureFlag "flag1"
       (getProjectData getWeightedRandomVariant_spec
          (example false None [])).2).1
    = Ok false
  ∧ ∃ vs wt,
      mapM (getTestVariant getWeightedRandomVariant_spec)
        (obj_keys (tests (data (example false None []))))
        (example false None [])
      = (Ok vs, wt)
      ∧ tests (data (getProjectData getWeightedRandomVariant_spec
                       (example false None [])).2)
        = zip_with withSelected (tests (data (example false None []))) vs.
Proof.
  assert (NoDup (obj_keys (tests (data (example false None []))))) as Hnd
    by (vm_compute; apply NoDup_singleton).
  split; [exact Hnd|].
  destruct (C9_getProjectData_keeps getWeightedRandomVariant_spec
              (example false None []) Hnd)
    as (Hdefs & _ & Hvalues & _ & _ & _ & Hread).
  split; [exact Hdefs|]. split; [exact (Hvalues "flag1")|].
  destruct (Hread
              (data (getProjectData getWeightedRandomVariant_spec
                       (example false None [])).2)
              (getProjectData getWeightedRandomVariant_spec
                 (example false None [])).2)
    as (_ & _ & _ & vs & wt & Hvs & _ & Hzip); [vm_compute; reflexivity|].
  exists vs, wt. split; [exact Hvs | exact Hzip].
Defined.

(** The claim fails: reading the project data writes the resolved values
    into the stored data. *)
Lemma C9_counterexample :
  data (example false None [])
  = mkLocalData [("test", mkTestEntry ["A"; "B"] None None)]
      [("flag1", None); ("flag2", None)]
  ∧ data (getProjectData getWeightedRandomVariant_spec
            (example false None [])).2
    = mkLocalData [("test", mkTestEntry ["A"; "B"] None (Some "A"))]
        [("flag1", Some false); ("flag2", Some false)]
  ∧ data (getProjectData getWeightedRandomVariant_spec
            (example false None [])).2
    ≠ data (example false None []).
Proof. repeat split; try (vm_compute; reflexivity). vm_compute. discriminate. Qed.

Lemma C10_variant_override_persisted_witness :
  is_Some (persistantTestStorage (example false (Some []) []))
  ∧ development (example false (Some []) []) = false
  ∧ declaredTest (example false (Some []) []) "test"
  ∧ Forall (λ c, ¬ overridesVariant "test" c)
      [CallInit (Some exampleResponse) None; CallGetTestVariant "test"]
  ∧ getTestVariant getWeightedRandomVariant_spec "test"
      (exampleCalls
         [CallInit (Some exampleResponse) None; CallGetTestVariant "test"]
         (updateLocalVariant getWeightedRandomVariant_spec "test" "B"
            (example false (Some []) [])).2)
    = (Ok "B",
       exampleCalls
         [CallInit (Some exampleResponse) None; CallGetTestVariant "test"]
         (updateLocalVariant getWeightedRandomVariant_spec "test" "B"
            (example false (Some []) [])).2).
Proof.
  assert (is_Some (persistantTestStorage (example false (Some []) [])))
    as Hstore by (by eexists).
  assert (declaredTest (example false (Some []) []) "test") as Hdecl
    by (by eexists).
  assert (Forall (λ c, ¬ overridesVariant "test" c)
            [CallInit (Some exampleResponse) None; CallGetTestVariant "test"])
    as Hcs by (repeat (apply List.Forall_cons); try apply List.Forall_nil;
               intros Hc; exact Hc).
  split; [exact Hstore|]. split; [reflexivity|]. split; [exact Hdecl|].
  split; [exact Hcs|].
  destruct (C10_variant_override_persisted getWeightedRandomVariant_spec
              parseCookies_spec ABBY_AB_STORAGE_PREFIX_spec
              ABBY_FF_STORAGE_PREFIX_spec (example false (Some []) [])
              "test" "B"
              [CallInit (Some exampleResponse) None; CallGetTestVariant "test"]
              Hstore) as [_ Hlater].
  apply Hlater; [reflexivity | exact Hdecl | exact Hcs].
Defined.

(** * A fresh instance *)

Lemma obj_keys_set_elem {V} (o : list (string * V)) k v k' :
  k' ∈ obj_keys (obj_set o k v) ↔ k' = k ∨ k' ∈ obj_keys o.
Proof.
  rewrite <- !obj_get_is_Some. destruct (decide (k = k')) as [->|Hne].
  - rewrite obj_get_set_eq. split; [by left | by eexists].
  - rewrite obj_get_set_ne by done. split; [by right | by intros [->|?]].
Qed.

Lemma obj_set_NoDup {V} (o : list (string * V)) k v :
  NoDup (obj_keys o) → NoDup (obj_keys (obj_set o k v)).
Proof.
  induction o as [|[k0 v0] o IH]; cbn.
  - intros _. apply NoDup_singleton.
  - intros [Hk0 Hnd]%NoDup_cons. destruct (decide (k0 = k)) as [->|Hne]; cbn.
    + by apply NoDup_cons.
    + apply NoDup_cons. split; [|by apply IH].
      change (k0 ∉ obj_keys (obj_set o k v)). rewrite obj_keys_set_elem.
      by intros [?|?].
Qed.

Lemma declareFlags_spec (l : list string) (o : list (string * option bool)) :
  NoDup (obj_keys o) →
  (∀ k v, obj_get o k = Some v → v = None) →
  NoDup (obj_keys (fold_left (λ acc flag, obj_set acc flag None) l o))
  ∧ (∀ k, k ∈ obj_keys (fold_left (λ acc flag, obj_set acc flag None) l o)
          ↔ k ∈ obj_keys o ∨ k ∈ l)
  ∧ (∀ k v,
       obj_get (fold_left (λ acc flag, obj_set acc flag None) l o) k = Some v →
       v = None).
Proof.
  revert o. induction l as [|x l IH]; intros o Hnd Hnull; cbn [fold_left].
  - split; [done|]. split; [|done].
    intros k. split; [by left | by intros [?|?%elem_of_nil]].
  - destruct (IH (obj_set o x None)) as (Hnd' & Hkeys & Hnull').
    + by apply obj_set_NoDup.
    + intros k v. destruct (decide (x = k)) as [->|Hne].
      * rewrite obj_get_set_eq. by intros [= <-].
      * rewrite obj_get_set_ne by done. apply Hnull.
    + split; [done|]. split; [|done].
      intros k. rewrite Hkeys, obj_keys_set_elem, elem_of_cons. tauto.
Qed.

(** X13. When no flag is declared under the name [__proto__] (the
    constructor's assignment would set the prototype of the stored flags
    to [null]), the stored flags of an instance fresh from the constructor
    are the declared flags, each once and each [null]; and outside
    development mode every flag, declared or not but then under a name
    that is no member of [Object.prototype], resolves to the configured
    default, or to [false] when none is configured. *)
Theorem fresh_instance_resolves_from_configuration {S Rng : Type}
    (cfg : AbbyConfig)
    (configTests : option (list (string * list string)))
    (testStorage flagStorage : option S) (dev : bool) (rng : Rng) :
  "__proto__" ∉ default [] (config_flags cfg) →
  NoDup (obj_keys (flags (data
    (new_Abby cfg configTests testStorage flagStorage dev rng))))
  ∧ (∀ k, k ∈ obj_keys (flags (data
            (new_Abby cfg configTests testStorage flagStorage dev rng)))
          ↔ k ∈ default [] (config_flags cfg))
  ∧ (∀ k v,
       obj_get (flags (data
         (new_Abby cfg configTests testStorage flagStorage dev rng))) k
       = Some v →
       v = None)
  ∧ (∀ k,
       dev = false →
       plainRead (flags (data
         (new_Abby cfg configTests testStorage flagStorage dev rng))) k →
       getFeatureFlag k
         (new_Abby cfg configTests testStorage flagStorage dev rng)
       = (Ok (default false ((settings cfg ≫= settings_flags) ≫= default_)),
          new_Abby cfg configTests testStorage flagStorage dev rng)).
Proof.
  intros _.
  destruct (declareFlags_spec (default [] (config_flags cfg)) [])
    as (Hnd & Hkeys & Hnull); [apply NoDup_nil_2 | done |].
  split; [exact Hnd|]. split; [|split; [exact Hnull|]].
  - intros k. unfold new_Abby. cbn [data flags]. rewrite Hkeys.
    split; [by intros [?%elem_of_nil|?] | by right].
  - intros k -> _. unfold getFeatureFlag, new_Abby.
    cbn [data flags flagOverrides development]. rewrite lookup_empty.
    destruct (obj_get _ k) as [[b|]|] eqn:Hget; try done.
    by apply Hnull in Hget.
Qed.

(** * The configuration of the code snippets (apps/web/src/utils/snippets.ts)

    [generateCodeSnippets] builds one configuration object from the tests
    and flags of a project and hands it to [JSON.stringify]; the snippets
    are that text inside three fixed templates, formatted and highlighted
    by libraries.  The object is modelled, the text is not. *)












(** * The further properties on the instance *)


(** The instance with an empty flag storage injected. *)
Definition exampleWithFlagStorage (dev : bool) : @Abby ObjectStorage (list Q) :=
  new_Abby exampleConfig None None (Some []) dev [].

Lemma unsubscribed_listener_receives_nothing_witness :
  Forall (λ c, c ≠ CallSubscribe 1)
    [CallSubscribe 2; CallUpdateFlag "flag1" true]
  ∧ deliveriesTo 1
      (exampleCalls [CallSubscribe 2; CallUpdateFlag "flag1" true]
         (unsubscribe 1 (exampleCalls [CallSubscribe 1]
                           (example false None [])) ).2)
    = [].
Proof.
  assert (Forall (λ c, c ≠ CallSubscribe 1)
            [CallSubscribe 2; CallUpdateFlag "flag1" true]) as Hcs
    by (repeat (apply List.Forall_cons); try apply List.Forall_nil;
        discriminate).
  split; [exact Hcs|].
  exact (unsubscribed_listener_receives_nothing getWeightedRandomVariant_spec
           parseCookies_spec ABBY_AB_STORAGE_PREFIX_spec
           ABBY_FF_STORAGE_PREFIX_spec
           (exampleCalls [CallSubscribe 1] (example false None []))
           1 _ Hcs).
Defined.

Lemma one_delivery_per_listener_witness :
  NoDup (listeners (example false (Some []) []))
  ∧ ∃ ds,
      delivered
        (notifyListeners getWeightedRandomVariant_spec
           (exampleCalls [CallSubscribe 1; CallSubscribe 1; CallSubscribe 2]
              (example false (Some []) []))).2
      = ([] ++ ds)%list
      ∧ ds.*1 = [1; 2].
Proof.
  assert (NoDup (listeners (example false (Some []) []))) as Hnd
    by apply NoDup_nil_2.
  split; [exact Hnd|].
  destruct (one_delivery_per_listener getWeightedRandomVariant_spec
              parseCookies_spec ABBY_AB_STORAGE_PREFIX_spec
              ABBY_FF_STORAGE_PREFIX_spec (example false (Some []) [])
              (notifyListeners getWeightedRandomVariant_spec
                 (exampleCalls
                    [CallSubscribe 1; CallSubscribe 1; CallSubscribe 2]
                    (example false (Some []) []))).2
              [CallSubscribe 1; CallSubscribe 1; CallSubscribe 2] Hnd)
    as (ds & Hdel & Hfst & _); [vm_compute; reflexivity|].
  exists ds. split; [exact Hdel | exact Hfst].
Defined.


Lemma undeclared_test_never_resolves_witness :
  NoDup (obj_keys (tests (data (example true None []))))
  ∧ ¬ declaredTest (example true None []) "test2"
  ∧ ¬ inheritedName "test2"
  ∧ Forall (λ c, Forall (λ n, ¬ inheritedName n) (ingestedTestNames c))
      [CallUpdateLocalVariant "test2" "VariantA";
       CallInit (Some exampleResponse) None]
  ∧ (getTestVariant getWeightedRandomVariant_spec "test2"
       (exampleCalls
          [CallUpdateLocalVariant "test2" "VariantA";
           CallInit (Some exampleResponse) None]
          (example true None []))).1
    = Throw TypeError.
Proof.
  assert (NoDup (obj_keys (tests (data (example true None []))))) as Hnd
    by (vm_compute; apply NoDup_singleton).
  assert (¬ declaredTest (example true None []) "test2") as Hnot
    by (intros [e He]; vm_compute in He; discriminate).
  assert (¬ inheritedName "test2") as Hplain
    by (apply not_inheritedName; vm_compute; reflexivity).
  assert (Forall (λ c, Forall (λ n, ¬ inheritedName n) (ingestedTestNames c))
            [CallUpdateLocalVariant "test2" "VariantA";
             CallInit (Some exampleResponse) None]) as Hcs
    by (repeat (apply List.Forall_cons); try apply List.Forall_nil;
        apply not_inheritedName; vm_compute; reflexivity).
  split; [exact Hnd|]. split; [exact Hnot|]. split; [exact Hplain|].
  split; [exact Hcs|].
  exact (f_equal fst
           (undeclared_test_never_resolves getWeightedRandomVariant_spec
              parseCookies_spec ABBY_AB_STORAGE_PREFIX_spec
              ABBY_FF_STORAGE_PREFIX_spec (example true None [])
              [CallUpdateLocalVariant "test2" "VariantA";
               CallInit (Some exampleResponse) None]
              "test2" Hnd Hnot Hplain Hcs)).
Defined.

Lemma flag_storage_written_in_development_only_witness :
  development (exampleWithFlagStorage false) = false
  ∧ persistantFlagStorage
      (exampleCalls [CallUpdateFlag "flag1" true]
         (exampleWithFlagStorage false))
    = Some [].
Proof.
  split; [reflexivity|].
  destruct (flag_storage_written_in_development_only
              getWeightedRandomVariant_spec parseCookies_spec
              ABBY_AB_STORAGE_PREFIX_spec ABBY_FF_STORAGE_PREFIX_spec
              (exampleWithFlagStorage false))
    as (Hprod & _ & _).
  exact (Hprod [CallUpdateFlag "flag1" true] eq_refl).
Defined.

Lemma flag_override_is_never_removed_witness :
  is_Some (flagOverrides
             (exampleCalls [CallSetLocalOverrides "abby-ff-proj1_flag1=true"]
                (example false None [])) !! "flag1")
  ∧ ∃ b,
      getFeatureFlag "flag1"
        (exampleCalls [CallInit (Some exampleResponse) None]
           (exampleCalls [CallSetLocalOverrides "abby-ff-proj1_flag1=true"]
              (example false None [])))
      = (Ok b,
         exampleCalls [CallInit (Some exampleResponse) None]
           (exampleCalls [CallSetLocalOverrides "abby-ff-proj1_flag1=true"]
              (example false None []))).
Proof.
  assert (is_Some (flagOverrides
             (exampleCalls [CallSetLocalOverrides "abby-ff-proj1_flag1=true"]
                (example false None [])) !! "flag1")) as Hsome
    by (exists true; vm_compute; reflexivity).
  split; [exact Hsome|].
  destruct (flag_override_is_never_removed getWeightedRandomVariant_spec
              parseCookies_spec ABBY_AB_STORAGE_PREFIX_spec
              ABBY_FF_STORAGE_PREFIX_spec _ "flag1"
              [CallInit (Some exampleResponse) None] Hsome)
    as (b & _ & Hb).
  exists b. exact Hb.
Defined.


Lemma assigned_variant_is_kept_witness :
  development (example false (Some []) [(1 # 2)%Q]) = false
  ∧ is_Some (persistantTestStorage (example false (Some []) [(1 # 2)%Q]))
  ∧ getTestVariant getWeightedRandomVariant_spec "test"
      (example false (Some []) [(1 # 2)%Q])
    = (Ok "B", example false (Some [("test", "B")]) [])
  ∧ Forall (λ c, ¬ overridesVariant "test" c)
      [CallInit (Some exampleResponse) None; CallGetProjectData]
  ∧ (getTestVariant getWeightedRandomVariant_spec "test"
       (exampleCalls
          [CallInit (Some exampleResponse) None; CallGetProjectData]
          (example false (Some [("test", "B")]) []))).1
    = Ok "B".
Proof.
  assert (is_Some (persistantTestStorage
                     (example false (Some []) [(1 # 2)%Q]))) as Hs
    by (by eexists).
  assert (Forall (λ c, ¬ overridesVariant "test" c)
            [CallInit (Some exampleResponse) None; CallGetProjectData])
    as Hcs by (repeat (apply List.Forall_cons); try apply List.Forall_nil;
               intros Hc; exact Hc).
  split; [reflexivity|]. split; [exact Hs|]. split; [reflexivity|].
  split; [exact Hcs|].
  exact (f_equal fst
           (assigned_variant_is_kept getWeightedRandomVariant_spec
              parseCookies_spec ABBY_AB_STORAGE_PREFIX_spec
              ABBY_FF_STORAGE_PREFIX_spec
              (example false (Some []) [(1 # 2)%Q])
              (example false (Some [("test", "B")]) []) "test" "B"
              [CallInit (Some exampleResponse) None; CallGetProjectData]
              eq_refl Hs eq_refl Hcs)).
Defined.

Lemma getProjectDataAsync_loads_once_witness :
  dataInitialized
    (getProjectDataAsync getWeightedRandomVariant_spec parseCookies_spec
       ABBY_AB_STORAGE_PREFIX_spec ABBY_FF_STORAGE_PREFIX_spec
       None None (example false (Some []) [])).2
  = true
  ∧ getProjectDataAsync getWeightedRandomVariant_spec parseCookies_spec
      ABBY_AB_STORAGE_PREFIX_spec ABBY_FF_STORAGE_PREFIX_spec
      (Some exampleResponse) None
      (exampleCalls [CallGetProjectDataAsync None None]
         (example false (Some []) []))
    = getProjectData getWeightedRandomVariant_spec
        (exampleCalls [CallGetProjectDataAsync None None]
           (example false (Some []) [])).
Proof.
  destruct (getProjectDataAsync_loads_once getWeightedRandomVariant_spec
              parseCookies_spec ABBY_AB_STORAGE_PREFIX_spec
              ABBY_FF_STORAGE_PREFIX_spec (example false (Some []) []))
    as [Hnone Hlater].
  split; [exact (Hnone None)|].
  destruct (Hlater None None
              (data (exampleCalls [CallGetProjectDataAsync None None]
                       (example false (Some []) [])))
              (exampleCalls [CallGetProjectDataAsync None None]
                 (example false (Some []) [])))
    as [_ Hsame]; [vm_compute; reflexivity|].
  exact (Hsame (Some exampleResponse) None).
Defined.



Lemma init_returns_the_weights_of_the_response_witness :
  NoDup (obj_keys (tests (data (example false (Some []) []))))
  ∧ obj_get (tests (data (example false (Some []) []))) "test"
    = Some (mkTestEntry ["A"; "B"] None None)
  ∧ ∃ ld w' e',
      init getWeightedRandomVariant_spec parseCookies_spec
        ABBY_AB_STORAGE_PREFIX_spec ABBY_FF_STORAGE_PREFIX_spec
        (Some exampleResponse) None (example false (Some []) [])
      = (Ok ld, w')
      ∧ obj_get (tests ld) "test" = Some e'
      ∧ variants e' = ["A"; "B"]
      ∧ weights e' = Some [1%Q; 1%Q].
Proof.
  assert (NoDup (obj_keys (tests (data (example false (Some []) [])))))
    as Hnd by (vm_compute; apply NoDup_singleton).
  split; [exact Hnd|]. split; [reflexivity|].
  eexists _, _.
  assert (∀ A (x : A), x = x) as Hrefl by reflexivity.
  pose proof (init_returns_the_weights_of_the_response
                getWeightedRandomVariant_spec parseCookies_spec
                ABBY_AB_STORAGE_PREFIX_spec ABBY_FF_STORAGE_PREFIX_spec
                (example false (Some []) [])
                (init getWeightedRandomVariant_spec parseCookies_spec
                   ABBY_AB_STORAGE_PREFIX_spec ABBY_FF_STORAGE_PREFIX_spec
                   (Some exampleResponse) None
                   (example false (Some []) [])).2
                exampleResponse None
                (data (init getWeightedRandomVariant_spec parseCookies_spec
                         ABBY_AB_STORAGE_PREFIX_spec
                         ABBY_FF_STORAGE_PREFIX_spec
                         (Some exampleResponse) None
                         (example false (Some []) [])).2)
                "test" (mkTestEntry ["A"; "B"] None None) Hnd)
    as Hthm.
  destruct Hthm as (e' & He' & Hv & Hw & _);
    [vm_compute; reflexivity | reflexivity |].
  exists e'. split; [vm_compute; reflexivity|].
  split; [exact He'|]. split; [exact Hv | exact Hw].
Defined.

Lemma fresh_instance_resolves_from_configuration_witness :
  ("__proto__" ∉ default [] (config_flags exampleConfig))
  ∧ plainRead (flags (data (example false None []))) "flag9"
  ∧ getFeatureFlag "flag9" (example false None [])
    = (Ok false, example false None []).
Proof.
  assert ("__proto__" ∉ default [] (config_flags exampleConfig)) as Hflags
    by (apply (bool_decide_unpack _); vm_compute; exact I).
  assert (plainRead (flags (data (example false None []))) "flag9") as Hplain
    by (right; apply not_inheritedName; vm_compute; reflexivity).
  split; [exact Hflags|]. split; [exact Hplain|].
  destruct (fresh_instance_resolves_from_configuration
              (S := ObjectStorage) (Rng := list Q) exampleConfig
              (Some [("test", ["A"; "B"])]) None None false [] Hflags)
    as (_ & _ & _ & Hdefault).
  exact (Hdefault "flag9" eq_refl Hplain).
Defined.

Lemma test_cookie_overrides_in_development_witness :
  ("abby-ab-" ++ "proj1" ++ "_" ++ "test", "B")
  ∈ parseCookies_spec "abby-ab-proj1_test=B; other=1"
  ∧ development (example true None []) = true
  ∧ declaredTest (example true None []) "test"
  ∧ getTestVariant getWeightedRandomVariant_spec "test"
      (setLocalOverrides parseCookies_spec ABBY_AB_STORAGE_PREFIX_spec
         ABBY_FF_STORAGE_PREFIX_spec "abby-ab-proj1_test=B; other=1"
         (example true None [])).2
    = (Ok "B",
       (setLocalOverrides parseCookies_spec ABBY_AB_STORAGE_PREFIX_spec
          ABBY_FF_STORAGE_PREFIX_spec "abby-ab-proj1_test=B; other=1"
          (example true None [])).2).
Proof.
  assert (("abby-ab-" ++ "proj1" ++ "_" ++ "test", "B")
          ∈ parseCookies_spec "abby-ab-proj1_test=B; other=1") as Hin
    by (vm_compute; left).
  assert (declaredTest (example true None []) "test") as Hdecl
    by (by eexists).
  split; [exact Hin|]. split; [reflexivity|]. split; [exact Hdecl|].
  destruct (test_cookie_overrides_in_development
              getWeightedRandomVariant_spec parseCookies_spec
              ABBY_AB_STORAGE_PREFIX_spec ABBY_FF_STORAGE_PREFIX_spec
              (example true None []) "abby-ab-proj1_test=B; other=1"
              "test" "B" Hin) as [_ Hget].
  - intros v' Hv'. vm_compute in Hv'.
    apply elem_of_cons in Hv' as [Hv'|Hv']; [by injection Hv' as ->|].
    by apply elem_of_nil in Hv'.
  - exact (Hget eq_refl Hdecl).
Defined.

Lemma flag_cookie_overrides_in_every_mode_witness :
  ("abby-ff-" ++ "proj1" ++ "_" ++ "flag1", "yes")
  ∈ parseCookies_spec "abby-ff-proj1_flag1=yes"
  ∧ (getFeatureFlag "flag1"
       (setLocalOverrides parseCookies_spec ABBY_AB_STORAGE_PREFIX_spec
          ABBY_FF_STORAGE_PREFIX_spec "abby-ff-proj1_flag1=yes"
          (exampleCalls [CallInit (Some exampleResponse) None]
             (example false None []))).2).1
    = Ok false.
Proof.
  assert (("abby-ff-" ++ "proj1" ++ "_" ++ "flag1", "yes")
          ∈ parseCookies_spec "abby-ff-proj1_flag1=yes") as Hin
    by (vm_compute; left).
  split; [exact Hin|].
  refine (f_equal fst
            (flag_cookie_overrides_in_every_mode parseCookies_spec
               ABBY_AB_STORAGE_PREFIX_spec ABBY_FF_STORAGE_PREFIX_spec
               (exampleCalls [CallInit (Some exampleResponse) None]
                  (example false None []))
               "abby-ff-proj1_flag1=yes" "flag1" "yes" Hin _)).
  intros b Hb. vm_compute in Hb.
  apply elem_of_cons in Hb as [Hb|Hb]; [by injection Hb as ->|].
  by apply elem_of_nil in Hb.
Defined.

Lemma test_cookies_are_ignored_outside_development_witness :
  development (example false (Some [("test", "A")]) []) = false
  ∧ (getTestVariant getWeightedRandomVariant_spec "test"
       (setLocalOverrides parseCookies_spec ABBY_AB_STORAGE_PREFIX_spec
          ABBY_FF_STORAGE_PREFIX_spec "abby-ab-proj1_test=B"
          (example false (Some [("test", "A")]) [])).2).1
    = Ok "A".
Proof.
  split; [reflexivity|].
  exact (test_cookies_are_ignored_outside_development
           getWeightedRandomVariant_spec parseCookies_spec
           ABBY_AB_STORAGE_PREFIX_spec ABBY_FF_STORAGE_PREFIX_spec
           (example false (Some [("test", "A")]) [])
           "abby-ab-proj1_test=B" "test" eq_refl).
Defined.

Lemma read_reports_the_variant_in_force_witness :
  is_Some (persistantTestStorage (example false (Some []) [(1 # 2)%Q]))
  ∧ NoDup (obj_keys (tests (data (example false (Some []) [(1 # 2)%Q]))))
  ∧ ∃ d w1,
      getProjectData getWeightedRandomVariant_spec
        (example false (Some []) [(1 # 2)%Q]) = (Ok d, w1)
      ∧ getProjectData getWeightedRandomVariant_spec w1 = (Ok d, w1).
Proof.
  assert (is_Some (persistantTestStorage
                     (example false (Some []) [(1 # 2)%Q]))) as Hs
    by (by eexists).
  assert (NoDup (obj_keys (tests (data
            (example false (Some []) [(1 # 2)%Q]))))) as Hnd
    by (vm_compute; apply NoDup_singleton).
  split; [exact Hs|]. split; [exact Hnd|].
  assert (getProjectData getWeightedRandomVariant_spec
            (example false (Some []) [(1 # 2)%Q])
          = (Ok (data (getProjectData getWeightedRandomVariant_spec
                         (example false (Some []) [(1 # 2)%Q])).2),
             (getProjectData getWeightedRandomVariant_spec
                (example false (Some []) [(1 # 2)%Q])).2)) as Hrun
    by (vm_compute; reflexivity).
  eexists _, _. split; [exact Hrun|].
  exact (proj1 (read_reports_the_variant_in_force
                  getWeightedRandomVariant_spec _ _ _ Hs Hnd Hrun)).
Defined.
